(** * Mock trading simulator: price generator, fee calculator, candle
      aggregator, ledger and auto-exit monitor

    A shallow embedding of [src/utils/marketSim.js] and of the simulation,
    aggregation and ledger code of the [App] component in
    [src/pages/Dashboard.jsx], with the properties the specification states
    about them.

    Numbers.  A JavaScript number is modelled twice.

    [Num.number] is an exact rational, or one of the three non-finite
    values.  Arithmetic on finite values is exact: the rounding of IEEE-754
    binary64 operations, overflow and the sign of zero are not modelled (zero
    is taken as positive zero).  The arithmetic of the special values, the
    behaviour of comparisons on [NaN], [Number.isFinite], [Math.min],
    [Math.max] and [toFixed(2)] follow ECMAScript.  The properties stated on
    this model are those on which the rounding of the operations has no
    bearing: the control flow of the handlers, the candles, the chart window,
    bounds that hold with a margin and values away from a rounding boundary.

    [F64.number] is a binary64 number (a primitive float): every operation
    is the IEEE-754 one, rounded to nearest, ties to even, with overflow,
    signed zeros and [NaN].  The price generator, the fee calculator and the
    buy and sell handlers are embedded a second time on these numbers, for
    the properties that speak of the numbers the program stores: what a
    guard compares, what [toFixed(2)] keeps of an average or of the cash.

    React state.  [cash], [holdings] and [orders] are three state hooks.  A
    handler reads the values captured by the render it was created in and
    queues updater functions ([setCash (c => ...)]) that React applies, in
    order, to the pending value of each hook.  Handlers therefore take two
    ledgers: the captured one ([snap]) and the pending one ([st]). *)

From Stdlib Require Import ZArith QArith Qround Lqa Lia List String Bool.
From Stdlib Require Import DecimalString.
From Stdlib Require Floats.PrimFloat Floats.SpecFloat Floats.FloatOps.
From Stdlib Require Floats.FloatAxioms Uint63.
Import ListNotations.

Set Implicit Arguments.

(** ** JavaScript numbers *)

Module Num.

Local Open Scope Q_scope.

Inductive number : Type :=
| Fin (q : Q)
| PosInf
| NegInf
| NaN.

(** [Number.isFinite] *)
Definition isFinite (x : number) : bool :=
  match x with Fin _ => true | _ => false end.

Definition isNaN (x : number) : bool :=
  match x with NaN => true | _ => false end.

Definition neg (x : number) : number :=
  match x with
  | Fin q => Fin (- q)
  | PosInf => NegInf
  | NegInf => PosInf
  | NaN => NaN
  end.

Definition add (x y : number) : number :=
  match x, y with
  | NaN, _ | _, NaN => NaN
  | Fin a, Fin b => Fin (a + b)
  | PosInf, NegInf | NegInf, PosInf => NaN
  | PosInf, _ | _, PosInf => PosInf
  | NegInf, _ | _, NegInf => NegInf
  end.

Definition sub (x y : number) : number := add x (neg y).

(** The sign of a number as a [comparison] with zero; [Eq] stands for a zero
    (or for [NaN], which the operations below treat first). *)
Definition sgn (x : number) : comparison :=
  match x with
  | Fin q => q ?= 0
  | PosInf => Gt
  | NegInf => Lt
  | NaN => Eq
  end.

Definition sign_mul (s t : comparison) : comparison :=
  match s, t with
  | Eq, _ | _, Eq => Eq
  | Gt, Gt | Lt, Lt => Gt
  | _, _ => Lt
  end.

(** Infinity of the given sign; a zero sign gives [NaN] (as in [Infinity * 0]
    and [0 / 0]). *)
Definition inf_of_sign (s : comparison) : number :=
  match s with Gt => PosInf | Lt => NegInf | Eq => NaN end.

Definition mul (x y : number) : number :=
  match x, y with
  | NaN, _ | _, NaN => NaN
  | Fin a, Fin b => Fin (a * b)
  | _, _ => inf_of_sign (sign_mul (sgn x) (sgn y))
  end.

Definition div (x y : number) : number :=
  match x, y with
  | NaN, _ | _, NaN => NaN
  | Fin a, Fin b =>
      if Qeq_bool b 0 then inf_of_sign (a ?= 0) else Fin (a / b)
  | Fin _, _ => Fin 0
  | _, Fin b =>
      inf_of_sign (sign_mul (sgn x) (if Qeq_bool b 0 then Gt else b ?= 0))
  | _, _ => NaN
  end.

(** [x <= y], [x < y], [x >= y], [x > y]: every comparison with [NaN] is
    false. *)
Definition leb (x y : number) : bool :=
  match x, y with
  | NaN, _ | _, NaN => false
  | Fin a, Fin b => Qle_bool a b
  | NegInf, _ => true
  | _, PosInf => true
  | _, _ => false
  end.

Definition ltb (x y : number) : bool :=
  match x, y with
  | NaN, _ | _, NaN => false
  | Fin a, Fin b => negb (Qle_bool b a)
  | NegInf, NegInf | PosInf, PosInf => false
  | NegInf, _ => true
  | _, PosInf => true
  | _, _ => false
  end.

Definition geb (x y : number) : bool := leb y x.
Definition gtb (x y : number) : bool := ltb y x.

(** [Math.min] and [Math.max] of two arguments: [NaN] if either is. *)
Definition min (x y : number) : number :=
  match x, y with
  | NaN, _ | _, NaN => NaN
  | _, _ => if leb x y then x else y
  end.

Definition max (x y : number) : number :=
  match x, y with
  | NaN, _ | _, NaN => NaN
  | _, _ => if leb x y then y else x
  end.

(** The integer [n] for which [n / 100] is closest to [q], the one further
    from zero when two are as close: the digits [toFixed(2)] prints. *)
Definition round2 (q : Q) : Q :=
  if Qle_bool 0 q
  then Qmake (Qfloor (q * 100 + (1 # 2))) 100
  else Qmake (- Qfloor (- q * 100 + (1 # 2))) 100.

(** [Number(x.toFixed(2))].  For a non-finite [x] the string is ["NaN"],
    ["Infinity"] or ["-Infinity"], which [Number] reads back.  From [1e21]
    upwards [toFixed] prints the number itself; a double that large is an
    integer, so rounding to two decimals describes that case too. *)
Definition toFixed2 (x : number) : number :=
  match x with
  | Fin q => Fin (round2 q)
  | _ => x
  end.

(** Equality of values: finite numbers are compared as rationals. *)
Definition num_eq (x y : number) : Prop :=
  match x, y with
  | Fin a, Fin b => a == b
  | PosInf, PosInf | NegInf, NegInf | NaN, NaN => True
  | _, _ => False
  end.

End Num.

Import Num.

Declare Scope js_scope.
Delimit Scope js_scope with js.
Bind Scope js_scope with number.
Infix "+" := add : js_scope.
Infix "-" := sub : js_scope.
Infix "*" := mul : js_scope.
Infix "/" := div : js_scope.
Infix "<=?" := leb : js_scope.
Infix "<?" := ltb : js_scope.
Infix ">=?" := geb (at level 70) : js_scope.
Infix ">?" := gtb (at level 70) : js_scope.
Infix "=n=" := num_eq (at level 70) : js_scope.

(** ** Price generator ([src/utils/marketSim.js]) *)

(** [simulateNextPrice(price, drift)].  [rnd] is the value [Math.random()]
    returns in the call. *)
Definition simulateNextPrice (rnd price drift : number) : number :=
  if negb (isFinite price) then Fin 0
  else
    let volatility := Fin 0.00015 in
    let shock := ((rnd - Fin 0.5) * volatility)%js in
    let percentMove := (drift + shock)%js in
    let next := (price * (Fin 1 + percentMove))%js in
    toFixed2 next.

(** ** Fee calculator ([calculateCharges]) *)

Inductive Side : Type := BUY | SELL.

Definition Side_eqb (a b : Side) : bool :=
  match a, b with
  | BUY, BUY | SELL, SELL => true
  | _, _ => false
  end.

Record Charges : Type := mkCharges {
  turnover : number;
  brokerage : number;
  stt : number;
  exchange : number;
  sebi : number;
  stamp : number;
  gst : number;
  dp : number;
  total : number
}.

Definition calculateCharges (side : Side) (qty price : number) : Charges :=
  let turnover := (qty * price)%js in
  let brokerage := min (turnover * Fin 0.0003)%js (Fin 20) in
  let stt := if Side_eqb side SELL then (turnover * Fin 0.00025)%js else Fin 0 in
  let exchange := (turnover * Fin 0.0000345)%js in
  let sebi := (turnover * Fin 0.000001)%js in
  let stamp := if Side_eqb side BUY then (turnover * Fin 0.00003)%js else Fin 0 in
  let gst := (Fin 0.18 * (brokerage + exchange))%js in
  let dp := if Side_eqb side SELL then Fin 13.5 else Fin 0 in
  let total := (brokerage + stt + exchange + sebi + stamp + gst + dp)%js in
  mkCharges turnover brokerage stt exchange sebi stamp gst dp total.

(** ** Ledger ([buyStock], [sellStock], [pushOrder]) *)

(** An entry of the [stocks] state.  The ledger reads [symbol] and [price]
    only; the fields the market tick maintains for display are left out. *)
Record Stock : Type := mkStock {
  stock_symbol : string;
  stock_price : number
}.

(** [null] is [None]. *)
Record Holding : Type := mkHolding {
  h_symbol : string;
  h_qty : number;
  h_avgBuy : number;
  h_sl : option number;
  h_target : option number
}.

Record Order : Type := mkOrder {
  o_id : string;
  o_time : string;
  o_symbol : string;
  o_side : Side;
  o_qty : number;
  o_price : number;
  o_status : string;
  o_charges : number
}.

Record Ledger : Type := mkLedger {
  cash : number;
  holdings : list Holding;
  orders : list Order
}.

(** A positive finite number: what the quantity guard of [buyStock] and
    [sellStock] lets through. *)
Definition positiveFinite (x : number) : bool :=
  isFinite x && (x >? Fin 0)%js.

(** The cost-weighted mean price of [oldQty] units at [oldAvg] and [qty]
    units at [price]. *)
Definition weightedMean (oldQty oldAvg qty price : number) : number :=
  ((oldQty * oldAvg + qty * price) / (oldQty + qty))%js.

(** What [Date.now()] and [nowTimeLabel()] return during a call. *)
Record Clock : Type := mkClock {
  now : Z;
  timeLabel : string
}.

(** The [alert] a handler raises, with the numbers its message shows. *)
Inductive Alert : Type :=
| QuantityAlert
| BalanceAlert (required available : number)
| NotOwnedAlert
| NotEnoughQuantityAlert (have : number).

(** How a handler ends: the bare [return] when the symbol has no live quote,
    an [alert], or the toast of a filled order. *)
Inductive Outcome : Type :=
| Returned
| Alerted (a : Alert)
| Filled (side : Side).

Definition findStock (stocks : list Stock) (symbol : string) : option Stock :=
  find (fun s => String.eqb (stock_symbol s) symbol) stocks.

Definition findHolding (hs : list Holding) (symbol : string) : option Holding :=
  find (fun h => String.eqb (h_symbol h) symbol) hs.

(** [`ORD-${Date.now()}`] *)
Definition orderId (clk : Clock) : string :=
  ("ORD-" ++ NilZero.string_of_int (Z.to_int (now clk)))%string.

(** [setOrders((prev) => [order, ...prev].slice(0, 60))] *)
Definition pushOrder (order : Order) (st : Ledger) : Ledger :=
  mkLedger (cash st) (holdings st) (firstn 60 (order :: orders st)).

Definition setCash (f : number -> number) (st : Ledger) : Ledger :=
  mkLedger (f (cash st)) (holdings st) (orders st).

Definition setHoldings (f : list Holding -> list Holding) (st : Ledger) : Ledger :=
  mkLedger (cash st) (f (holdings st)) (orders st).

(** [slPrice === "" ? null : Number(slPrice)] followed by
    [Number.isFinite(parsed) ? parsed : null].  The text of the input field is
    [None] when empty and otherwise the number [Number] reads from it. *)
Definition parseLevel (field : option number) : option number :=
  match field with
  | None => None
  | Some n => if isFinite n then Some n else None
  end.

(** [a ?? b] *)
Definition nullish (a b : option number) : option number :=
  match a with Some _ => a | None => b end.

(** The updater [buyStock] passes to [setHoldings]. *)
Definition buyUpsert (symbol : string) (quantity price : number)
    (slPrice targetPrice : option number) (prev : list Holding) : list Holding :=
  let parsedSL := parseLevel slPrice in
  let parsedTarget := parseLevel targetPrice in
  match findHolding prev symbol with
  | None =>
      prev ++ [mkHolding symbol quantity (toFixed2 price) parsedSL parsedTarget]
  | Some existing =>
      let newQty := (h_qty existing + quantity)%js in
      let newAvg :=
        ((h_qty existing * h_avgBuy existing + quantity * price) / newQty)%js in
      map (fun h =>
             if String.eqb (h_symbol h) symbol
             then mkHolding (h_symbol h) newQty (toFixed2 newAvg)
                    (nullish (h_sl existing) parsedSL)
                    (nullish (h_target existing) parsedTarget)
             else h) prev
  end.

(** [buyStock(symbol, quantity, slPrice, targetPrice)] called in a render that
    captured [stocks] and [snap], with [st] the pending ledger. *)
Definition buyStock (stocks : list Stock) (clk : Clock) (snap st : Ledger)
    (symbol : string) (quantity : number) (slPrice targetPrice : option number)
    : Outcome * Ledger :=
  match findStock stocks symbol with
  | None => (Returned, st)
  | Some live =>
      if negb (isFinite quantity) || (quantity <=? Fin 0)%js
      then (Alerted QuantityAlert, st)
      else
        let price := stock_price live in
        let charges := calculateCharges BUY quantity price in
        let totalDebit := (quantity * price + total charges)%js in
        if (totalDebit >? cash snap)%js
        then (Alerted (BalanceAlert (toFixed2 totalDebit) (toFixed2 (cash snap))), st)
        else
          let st1 :=
            pushOrder (mkOrder (orderId clk) (timeLabel clk) symbol BUY quantity
                         (toFixed2 price) "FILLED" (toFixed2 (total charges))) st in
          let st2 := setCash (fun c => toFixed2 (c - totalDebit)%js) st1 in
          let st3 :=
            setHoldings (buyUpsert symbol quantity price slPrice targetPrice) st2 in
          (Filled BUY, st3)
  end.

(** The updater [sellStock] passes to [setHoldings]. *)
Definition sellReduce (symbol : string) (quantity : number)
    (prev : list Holding) : list Holding :=
  match findHolding prev symbol with
  | None => prev
  | Some h =>
      let newQty := (h_qty h - quantity)%js in
      if (newQty <=? Fin 0)%js
      then filter (fun x => negb (String.eqb (h_symbol x) symbol)) prev
      else map (fun x =>
                  if String.eqb (h_symbol x) symbol
                  then mkHolding (h_symbol x) newQty (h_avgBuy x) (h_sl x) (h_target x)
                  else x) prev
  end.

(** [sellStock(symbol, quantity)].  The holding is looked up in the captured
    [holdings]; the three updaters act on the pending ledger. *)
Definition sellStock (stocks : list Stock) (clk : Clock) (snap st : Ledger)
    (symbol : string) (quantity : number) : Outcome * Ledger :=
  match findStock stocks symbol with
  | None => (Returned, st)
  | Some live =>
      if negb (isFinite quantity) || (quantity <=? Fin 0)%js
      then (Alerted QuantityAlert, st)
      else
        match findHolding (holdings snap) symbol with
        | None => (Alerted NotOwnedAlert, st)
        | Some existing =>
            if (quantity >? h_qty existing)%js
            then (Alerted (NotEnoughQuantityAlert (h_qty existing)), st)
            else
              let price := stock_price live in
              let charges := calculateCharges SELL quantity price in
              let grossCredit := (quantity * price)%js in
              let netCredit := (grossCredit - total charges)%js in
              let st1 :=
                pushOrder (mkOrder (orderId clk) (timeLabel clk) symbol SELL quantity
                             (toFixed2 price) "FILLED" (toFixed2 (total charges))) st in
              let st2 := setCash (fun c => toFixed2 (c + netCredit)%js) st1 in
              let st3 := setHoldings (sellReduce symbol quantity) st2 in
              (Filled SELL, st3)
        end
  end.

(** A handler called from a button: nothing is pending, so the captured and
    the pending ledger are the same. *)
Definition buy (stocks : list Stock) (clk : Clock) (st : Ledger)
    (symbol : string) (quantity : number) (slPrice targetPrice : option number)
    : Outcome * Ledger :=
  buyStock stocks clk st st symbol quantity slPrice targetPrice.

Definition sell (stocks : list Stock) (clk : Clock) (st : Ledger)
    (symbol : string) (quantity : number) : Outcome * Ledger :=
  sellStock stocks clk st st symbol quantity.

(** ** Auto-exit monitor (the effect on [tickCount]) *)

(** [h.target != null && ltp >= h.target && h.qty > 0] *)
Definition targetHit (h : Holding) (ltp : number) : bool :=
  match h_target h with
  | Some t => (ltp >=? t)%js && (h_qty h >? Fin 0)%js
  | None => false
  end.

(** [h.sl != null && ltp <= h.sl && h.qty > 0] *)
Definition stopLossHit (h : Holding) (ltp : number) : bool :=
  match h_sl h with
  | Some s => (ltp <=? s)%js && (h_qty h >? Fin 0)%js
  | None => false
  end.

(** The body of [holdings.forEach]: [h] comes from the captured holdings, and
    both calls of [sellStock] belong to the same render. *)
Definition autoExitHolding (stocks : list Stock) (clk : Clock) (snap : Ledger)
    (st : Ledger) (h : Holding) : Ledger :=
  match findStock stocks (h_symbol h) with
  | None => st
  | Some live =>
      let ltp := stock_price live in
      let st1 :=
        if targetHit h ltp
        then snd (sellStock stocks clk snap st (h_symbol h) (h_qty h))
        else st in
      if stopLossHit h ltp
      then snd (sellStock stocks clk snap st1 (h_symbol h) (h_qty h))
      else st1
  end.

(** One run of the effect, in the render that captured [stocks] and [snap]. *)
Definition autoExit (stocks : list Stock) (clk : Clock) (snap : Ledger) : Ledger :=
  if (List.length (holdings snap) =? 0)%nat then snap
  else fold_left (autoExitHolding stocks clk snap) (holdings snap) snap.

(** The SELL orders of a symbol in an order log. *)
Definition sellOrdersOf (symbol : string) (os : list Order) : list Order :=
  filter (fun o => Side_eqb (o_side o) SELL && String.eqb (o_symbol o) symbol) os.

(** ** Candle aggregator (the effect that builds candles) *)

Record Candle : Type := mkCandle {
  c_id : Z;
  c_time : string;
  c_open : number;
  c_high : number;
  c_low : number;
  c_close : number;
  c_ticks : Z
}.

(** The [candles] state and [candleRef.current]. *)
Record Aggregator : Type := mkAggregator {
  candles : list Candle;
  candleRef : option Candle
}.

Definition CANDLE_TICKS : Z := 6.

(** [list[list.length - 1] = x].  On an empty array the assignment creates the
    property ["-1"], which is not an element: the array stays empty. *)
Fixpoint setLast (l : list Candle) (x : Candle) : list Candle :=
  match l with
  | [] => []
  | [_] => [x]
  | y :: l' => y :: setLast l' x
  end.

(** [list.slice(-n)] *)
Definition sliceLast (n : nat) (l : list Candle) : list Candle :=
  skipn (List.length l - n) l.

(** The state after a mount or a change of symbol. *)
Definition emptyAggregator : Aggregator := mkAggregator [] None.

(** The updater given to [setCandles], together with its writes to
    [candleRef.current], for one price. *)
Definition ingest (clk : Clock) (price : number) (st : Aggregator) : Aggregator :=
  let list := candles st in
  match candleRef st with
  | None =>
      let c := mkCandle (now clk) (timeLabel clk) price price price price 1 in
      mkAggregator (list ++ [c]) (Some c)
  | Some current =>
      let updated :=
        mkCandle (c_id current) (timeLabel clk) (c_open current)
          (max (c_high current) price) (min (c_low current) price) price
          (c_ticks current + 1) in
      let list1 := setLast list updated in
      if (c_ticks updated >=? CANDLE_TICKS)%Z
      then
        let next :=
          mkCandle (now clk + 1) (timeLabel clk) (c_close updated) (c_close updated)
            (c_close updated) (c_close updated) 0 in
        mkAggregator (sliceLast 300 (list1 ++ [next])) (Some next)
      else mkAggregator (sliceLast 300 list1) (Some updated)
  end.

(** The effect itself: nothing happens without a selected stock. *)
Definition buildCandles (stocks : list Stock) (selected : string) (clk : Clock)
    (st : Aggregator) : Aggregator :=
  match findStock stocks selected with
  | None => st
  | Some selectedStock => ingest clk (stock_price selectedStock) st
  end.

(** A run of ingests, oldest first. *)
Definition ingestAll (ticks : list (Clock * number)) (st : Aggregator) : Aggregator :=
  fold_left (fun s t => ingest (fst t) (snd t) s) ticks st.

(** [low <= min(open, close) <= max(open, close) <= high] *)
Definition candleOk (c : Candle) : bool :=
  (c_low c <=? min (c_open c) (c_close c))%js
  && (min (c_open c) (c_close c) <=? max (c_open c) (c_close c))%js
  && (max (c_open c) (c_close c) <=? c_high c)%js.

(** The open candle is the last one of the history. *)
Definition openIsLast (st : Aggregator) : Prop :=
  match candleRef st with
  | None => candles st = []
  | Some c => exists closed, candles st = closed ++ [c]
  end.

(** Every candle of the history, and the open candle, is well formed. *)
Definition aggregatorOk (st : Aggregator) : Prop :=
  Forall (fun c => candleOk c = true) (candles st)
  /\ (forall c, candleRef st = Some c -> candleOk c = true).

(** Neither level of the holding is hit at its live price, if it has one. *)
Definition nothingHit (stocks : list Stock) (h : Holding) : Prop :=
  forall live, findStock stocks (h_symbol h) = Some live ->
               targetHit h (stock_price live) = false
               /\ stopLossHit h (stock_price live) = false.

(** The number [x] is the integer [z]. *)
Definition integral (x : number) (z : Z) : Prop :=
  exists q : Q, x = Fin q /\ q == inject_Z z.

(** ** Helpers of [Dashboard.jsx] *)

(** [clamp(v, a, b)]: [Math.max(a, Math.min(b, v))] *)
Definition clamp (v a b : number) : number := max a (min b v).

(** [x === y] on numbers: [NaN] is equal to nothing. *)
Definition strictEq (x y : number) : bool :=
  match x, y with
  | Fin a, Fin b => Qeq_bool a b
  | PosInf, PosInf | NegInf, NegInf => true
  | _, _ => false
  end.

(** [Math.round]: the nearest integer, halves going up. *)
Definition mathRound (x : number) : number :=
  match x with
  | Fin q => Fin (inject_Z (Qfloor (q + (1 # 2))))
  | _ => x
  end.

(** ** Market tick (the interval callback) *)

(** An entry of the [stocks] state with the fields the tick maintains. *)
Record Quote : Type := mkQuote {
  q_symbol : string;
  q_open : number;
  q_last : number;
  q_price : number;
  q_drift : number;
  q_change : number;
  q_changePercent : number
}.

(** What the ledger and the candle effect read of a quote. *)
Definition quoteStock (s : Quote) : Stock := mkStock (q_symbol s) (q_price s).

(** The function mapped over [prevStocks]; [rDrift] and [rShock] are the two
    values [Math.random()] returns, the second one inside
    [simulateNextPrice]. *)
Definition tickQuote (rDrift rShock : number) (s : Quote) : Quote :=
  let open := if isFinite (q_open s) then q_open s else q_price s in
  let nextDrift0 :=
    ((if isFinite (q_drift s) then q_drift s else Fin 0)
     + (rDrift - Fin 0.5) * Fin 0.00002)%js in
  let nextDrift := max (min nextDrift0 (Fin 0.00025)) (Fin (-0.00025)) in
  let nextPrice := simulateNextPrice rShock (q_price s) nextDrift in
  let change := toFixed2 (nextPrice - open)%js in
  let changePercent := toFixed2 ((change / open) * Fin 100)%js in
  mkQuote (q_symbol s) open (q_price s) nextPrice nextDrift change changePercent.

(** [prevStocks.map(...)]: the stock at position [i] uses the draws
    [draws i]. *)
Fixpoint tickFrom (draws : nat -> number * number) (i : nat)
    (stocks : list Quote) : list Quote :=
  match stocks with
  | [] => []
  | s :: rest =>
      tickQuote (fst (draws i)) (snd (draws i)) s :: tickFrom draws (S i) rest
  end.

Definition tickStocks (draws : nat -> number * number) (stocks : list Quote)
    : list Quote :=
  tickFrom draws 0 stocks.

(** ** Wallet ([handleAddFunds], [handleWithdraw]) *)

(** How a wallet handler ends: the bare [return] on an amount that is not a
    positive finite number, the alert of a withdrawal above the cash, or the
    toast of a done operation. *)
Inductive FundsOutcome : Type :=
| FundsReturned
| FundsAlerted
| FundsDone.

(** [handleAddFunds()], with [amt] the number read from the prompt. *)
Definition handleAddFunds (amt : number) (st : Ledger) : FundsOutcome * Ledger :=
  if negb (isFinite amt) || (amt <=? Fin 0)%js then (FundsReturned, st)
  else (FundsDone, setCash (fun c => toFixed2 (c + amt)%js) st).

(** [handleWithdraw()]: the amount is compared with the captured cash. *)
Definition handleWithdraw (amt : number) (snap st : Ledger)
    : FundsOutcome * Ledger :=
  if negb (isFinite amt) || (amt <=? Fin 0)%js then (FundsReturned, st)
  else if (amt >? cash snap)%js then (FundsAlerted, st)
  else (FundsDone, setCash (fun c => toFixed2 (c - amt)%js) st).

(** ** Chart window and panning *)

(** [array.length] *)
Definition lengthOf (A : Type) (l : list A) : number :=
  Fin (inject_Z (Z.of_nat (List.length l))).

(** An argument of [slice] as an index of an array of length [len]: the
    number is truncated to an integer ([NaN] counts as 0), a negative one
    counts from the end, and the result is kept within [0 .. len]. *)
Definition sliceIndex (len : Z) (x : number) : Z :=
  match x with
  | NaN => 0
  | NegInf => 0
  | PosInf => len
  | Fin q =>
      let i := if Qle_bool 0 q then Qfloor q else Qceiling q in
      if (i <? 0)%Z then Z.max (len + i) 0 else Z.min i len
  end.

(** [l.slice(start, stop)] *)
Definition jsSlice (A : Type) (start stop : number) (l : list A) : list A :=
  let len := Z.of_nat (List.length l) in
  let k := sliceIndex len start in
  let final := sliceIndex len stop in
  firstn (Z.to_nat (final - k)) (skipn (Z.to_nat k) l).

(** The candles [CandlestickChart] draws. *)
Definition visibleCandles (candles : list Candle) (visibleCount panOffset : number)
    : list Candle :=
  let safeVisible := clamp visibleCount (Fin 20) (Fin 120) in
  let endIndex := max (Fin 0) (lengthOf candles - panOffset)%js in
  let startIndex := max (Fin 0) (endIndex - safeVisible)%js in
  jsSlice startIndex endIndex candles.

(** [Math.max(0, candles.length - 20)] *)
Definition maxPanOffset (candles : list Candle) : number :=
  max (Fin 0) (lengthOf candles - Fin 20)%js.

(** The refs and state the drag handlers use. *)
Record ChartView : Type := mkChartView {
  dragging : bool;
  dragStartX : number;
  dragStartPan : number;
  panOffset : number;
  autoFollow : bool
}.

Definition handleChartMouseDown (clientX : number) (v : ChartView) : ChartView :=
  mkChartView true clientX (panOffset v) (panOffset v) false.

Definition handleChartMouseMove (candles : list Candle) (clientX : number)
    (v : ChartView) : ChartView :=
  if negb (dragging v) then v
  else
    let dx := (clientX - dragStartX v)%js in
    let candlesMove := mathRound (dx / Fin 12)%js in
    let next := clamp (dragStartPan v - candlesMove)%js (Fin 0) (maxPanOffset candles) in
    mkChartView (dragging v) (dragStartX v) (dragStartPan v) next (autoFollow v).

Definition handleChartMouseUp (v : ChartView) : ChartView :=
  mkChartView false (dragStartX v) (dragStartPan v) (panOffset v) (autoFollow v).

Definition handleChartDoubleClick (v : ChartView) : ChartView :=
  mkChartView (dragging v) (dragStartX v) (dragStartPan v) (Fin 0) true.

(** ** Chart scale and crosshair ([CandlestickChart]) *)

(** [Math.floor] *)
Definition mathFloor (x : number) : number :=
  match x with
  | Fin q => Fin (inject_Z (Qfloor q))
  | _ => x
  end.

(** [Math.min(...xs)] and [Math.max(...xs)]: [Infinity] and [-Infinity] for
    no argument, [NaN] if an argument is [NaN]. *)
Fixpoint mathMin (xs : list number) : number :=
  match xs with
  | [] => PosInf
  | x :: rest => min x (mathMin rest)
  end.

Fixpoint mathMax (xs : list number) : number :=
  match xs with
  | [] => NegInf
  | x :: rest => max x (mathMax rest)
  end.

(** [pad] *)
Definition padLeft : number := Fin 56.
Definition padRight : number := Fin 18.
Definition padTop : number := Fin 14.
Definition padBottom : number := Fin 28.

Definition plotH (height : number) : number :=
  max (Fin 10) (height - padTop - padBottom)%js.

(** [candleW + gap] *)
Definition step : number := (Fin 10 + Fin 6)%js.

(** [visible.flatMap((c) => [c.high, c.low])] *)
Definition chartPrices (visible : list Candle) : list number :=
  flat_map (fun c => [c_high c; c_low c]) visible.

(** [Math.min(...prices, visible[0]?.low ?? 0)] *)
Definition minP (visible : list Candle) : number :=
  mathMin (chartPrices visible
           ++ [match visible with c :: _ => c_low c | [] => Fin 0 end]).

(** [Math.max(...prices, visible[0]?.high ?? 1)] *)
Definition maxP (visible : list Candle) : number :=
  mathMax (chartPrices visible
           ++ [match visible with c :: _ => c_high c | [] => Fin 1 end]).

Definition yMin (visible : list Candle) : number :=
  (minP visible - (maxP visible - minP visible) * Fin 0.08)%js.

Definition yMax (visible : list Candle) : number :=
  (maxP visible + (maxP visible - minP visible) * Fin 0.08)%js.

Definition yScale (height : number) (visible : list Candle) (p : number) : number :=
  if strictEq (yMax visible) (yMin visible)
  then (padTop + plotH height / Fin 2)%js
  else
    let t := ((p - yMin visible) / (yMax visible - yMin visible))%js in
    (padTop + (Fin 1 - t) * plotH height)%js.

(** The crosshair state; [idx] is [None] for [null]. *)
Record Cross : Type := mkCross {
  cross_active : bool;
  cross_x : number;
  cross_y : number;
  cross_idx : option number
}.

(** The bounding rectangle of the chart element. *)
Record Rect : Type := mkRect {
  rect_left : number;
  rect_top : number;
  rect_width : number;
  rect_height : number
}.

(** [handleMove(e)]: the crosshair it sets, for the mouse position and the
    rectangle of the event. *)
Definition handleMove (width height shiftX : number) (visible : list Candle)
    (clientX clientY : number) (rect : Rect) : Cross :=
  let px := (((clientX - rect_left rect) / rect_width rect) * width)%js in
  let py := (((clientY - rect_top rect) / rect_height rect) * height)%js in
  let xClamped := clamp px padLeft (width - padRight)%js in
  let yClamped := clamp py padTop (padTop + plotH height)%js in
  let localX := (xClamped - padLeft + shiftX * step)%js in
  let i := clamp (mathFloor (localX / step)%js) (Fin 0)
             (max (Fin 0) (lengthOf visible - Fin 1)%js) in
  mkCross true xClamped yClamped
    (if (lengthOf visible >? Fin 0)%js then Some i else None).

(** Every high and low of the candles is a finite number. *)
Definition finiteCandles (cs : list Candle) : Prop :=
  Forall (fun c => isFinite (c_high c) = true /\ isFinite (c_low c) = true) cs.

(** ** Exponential moving average ([src/utils/ema.js]) *)





(** ** The price generator, the fee calculator and the ledger on binary64 *)

(** The program computes with IEEE-754 binary64 numbers.  [F64] embeds
    [simulateNextPrice], [calculateCharges], [buyStock] and [sellStock] on
    the primitive floats, whose operations are those of the processor: each
    one rounds its exact result to the nearest binary64, ties to even.  A
    decimal literal stands for the binary64 nearest to it, as in
    JavaScript. *)

Set Warnings "-inexact-float".

Module F64.

Import PrimFloat SpecFloat FloatOps.

Local Open Scope float_scope.

Definition number : Type := float.

(** [Number.isFinite] *)
Definition isFinite (x : number) : bool := is_finite x.

(** [x > y] *)
Definition gtb (x y : number) : bool := y <? x.

Infix ">?" := gtb (at level 70) : float_scope.

(** [Math.min] of two arguments: [NaN] if either is, and [-0] counts as less
    than [+0]. *)
Definition min (x y : number) : number :=
  if is_nan x || is_nan y then nan
  else if x <? y then x
  else if y <? x then y
  else if get_sign x then x else y.

(** The integer [n] for which [n / 100] is closest to [|x|], the larger one
    when two are as close: the digits [toFixed(2)] prints after the sign.
    [|x|] is [m * 2^e] exactly, so [n] is [floor (100 * m * 2^e + 1/2)]. *)
Definition hundredths (x : number) : Z :=
  match Prim2SF (abs x) with
  | S754_finite _ m e =>
      match e with
      | Zneg k => (2 * 100 * Zpos m + Zpos (2 ^ k)) / (2 * Zpos (2 ^ k))
      | _ => 100 * Zpos m * 2 ^ e
      end
  | _ => 0
  end%Z.

(** [Number(x.toFixed(2))].  For a non-finite [x] the string is ["NaN"],
    ["Infinity"] or ["-Infinity"], which [Number] reads back.  Otherwise the
    string is the sign of [x] (none for a zero) and the digits of
    [hundredths x] with a point before the last two, and [Number] reads it as
    the binary64 nearest to that decimal.  Below [2^46] the integer
    [hundredths x] is less than [2^53], hence a binary64 itself, and its
    division by 100, rounded once, is that nearest number.  From [2^46] on
    two neighbouring binary64 are at least [2^-6] apart while the decimal is
    within [0.005] of [x], so the number read back is [x] (this covers
    [1e21] and above, where [toFixed] prints the number in full). *)
Definition toFixed2 (x : number) : number :=
  if negb (is_finite x) then x
  else if 70368744177664 <=? abs x then x
  else
    let r := of_uint63 (Uint63.of_Z (hundredths x)) / 100 in
    if x <? 0 then - r else r.

(** [simulateNextPrice(price, drift)].  [rnd] is the value [Math.random()]
    returns in the call. *)
Definition simulateNextPrice (rnd price drift : number) : number :=
  if negb (isFinite price) then 0
  else
    let volatility := 0.00015 in
    let shock := (rnd - 0.5) * volatility in
    let percentMove := drift + shock in
    let next := price * (1 + percentMove) in
    toFixed2 next.

Record Charges : Type := mkCharges {
  turnover : number;
  brokerage : number;
  stt : number;
  exchange : number;
  sebi : number;
  stamp : number;
  gst : number;
  dp : number;
  total : number
}.

(** [calculateCharges({ side, qty, price })] *)
Definition calculateCharges (side : Side) (qty price : number) : Charges :=
  let turnover := qty * price in
  let brokerage := min (turnover * 0.0003) 20 in
  let stt := if Side_eqb side SELL then turnover * 0.00025 else 0 in
  let exchange := turnover * 0.0000345 in
  let sebi := turnover * 0.000001 in
  let stamp := if Side_eqb side BUY then turnover * 0.00003 else 0 in
  let gst := 0.18 * (brokerage + exchange) in
  let dp := if Side_eqb side SELL then 13.5 else 0 in
  let total := brokerage + stt + exchange + sebi + stamp + gst + dp in
  mkCharges turnover brokerage stt exchange sebi stamp gst dp total.

Record Stock : Type := mkStock {
  stock_symbol : string;
  stock_price : number
}.

(** [null] is [None]. *)
Record Holding : Type := mkHolding {
  h_symbol : string;
  h_qty : number;
  h_avgBuy : number;
  h_sl : option number;
  h_target : option number
}.

Record Order : Type := mkOrder {
  o_id : string;
  o_time : string;
  o_symbol : string;
  o_side : Side;
  o_qty : number;
  o_price : number;
  o_status : string;
  o_charges : number
}.

Record Ledger : Type := mkLedger {
  cash : number;
  holdings : list Holding;
  orders : list Order
}.

(** A positive finite number: what the quantity guard of [buyStock] and
    [sellStock] lets through. *)
Definition positiveFinite (x : number) : bool :=
  isFinite x && (x >? 0).

(** The cost-weighted mean price of [oldQty] units at [oldAvg] and [qty]
    units at [price], as [buyStock] computes it. *)
Definition weightedMean (oldQty oldAvg qty price : number) : number :=
  (oldQty * oldAvg + qty * price) / (oldQty + qty).

(** The [alert] a handler raises, with the numbers its message shows. *)
Inductive Alert : Type :=
| QuantityAlert
| BalanceAlert (required available : number)
| NotOwnedAlert
| NotEnoughQuantityAlert (have : number).

(** How a handler ends: the bare [return] when the symbol has no live quote,
    an [alert], or the toast of a filled order. *)
Inductive Outcome : Type :=
| Returned
| Alerted (a : Alert)
| Filled (side : Side).

Definition findStock (stocks : list Stock) (symbol : string) : option Stock :=
  find (fun s => String.eqb (stock_symbol s) symbol) stocks.

Definition findHolding (hs : list Holding) (symbol : string) : option Holding :=
  find (fun h => String.eqb (h_symbol h) symbol) hs.

(** [setOrders((prev) => [order, ...prev].slice(0, 60))] *)
Definition pushOrder (order : Order) (st : Ledger) : Ledger :=
  mkLedger (cash st) (holdings st) (firstn 60 (order :: orders st)).

Definition setCash (f : number -> number) (st : Ledger) : Ledger :=
  mkLedger (f (cash st)) (holdings st) (orders st).

Definition setHoldings (f : list Holding -> list Holding) (st : Ledger) : Ledger :=
  mkLedger (cash st) (f (holdings st)) (orders st).

(** [slPrice === "" ? null : Number(slPrice)] followed by
    [Number.isFinite(parsed) ? parsed : null]. *)
Definition parseLevel (field : option number) : option number :=
  match field with
  | None => None
  | Some n => if isFinite n then Some n else None
  end.

(** [a ?? b] *)
Definition nullish (a b : option number) : option number :=
  match a with Some _ => a | None => b end.

(** The updater [buyStock] passes to [setHoldings]. *)
Definition buyUpsert (symbol : string) (quantity price : number)
    (slPrice targetPrice : option number) (prev : list Holding) : list Holding :=
  let parsedSL := parseLevel slPrice in
  let parsedTarget := parseLevel targetPrice in
  match findHolding prev symbol with
  | None =>
      prev ++ [mkHolding symbol quantity (toFixed2 price) parsedSL parsedTarget]
  | Some existing =>
      let newQty := h_qty existing + quantity in
      let newAvg :=
        (h_qty existing * h_avgBuy existing + quantity * price) / newQty in
      map (fun h =>
             if String.eqb (h_symbol h) symbol
             then mkHolding (h_symbol h) newQty (toFixed2 newAvg)
                    (nullish (h_sl existing) parsedSL)
                    (nullish (h_target existing) parsedTarget)
             else h) prev
  end.

(** [buyStock(symbol, quantity, slPrice, targetPrice)] called in a render that
    captured [stocks] and [snap], with [st] the pending ledger. *)
Definition buyStock (stocks : list Stock) (clk : Clock) (snap st : Ledger)
    (symbol : string) (quantity : number) (slPrice targetPrice : option number)
    : Outcome * Ledger :=
  match findStock stocks symbol with
  | None => (Returned, st)
  | Some live =>
      if negb (isFinite quantity) || (quantity <=? 0)
      then (Alerted QuantityAlert, st)
      else
        let price := stock_price live in
        let charges := calculateCharges BUY quantity price in
        let totalDebit := quantity * price + total charges in
        if totalDebit >? cash snap
        then (Alerted (BalanceAlert (toFixed2 totalDebit) (toFixed2 (cash snap))), st)
        else
          let st1 :=
            pushOrder (mkOrder (orderId clk) (timeLabel clk) symbol BUY quantity
                         (toFixed2 price) "FILLED" (toFixed2 (total charges))) st in
          let st2 := setCash (fun c => toFixed2 (c - totalDebit)) st1 in
          let st3 :=
            setHoldings (buyUpsert symbol quantity price slPrice targetPrice) st2 in
          (Filled BUY, st3)
  end.

(** The updater [sellStock] passes to [setHoldings]. *)
Definition sellReduce (symbol : string) (quantity : number)
    (prev : list Holding) : list Holding :=
  match findHolding prev symbol with
  | None => prev
  | Some h =>
      let newQty := h_qty h - quantity in
      if newQty <=? 0
      then filter (fun x => negb (String.eqb (h_symbol x) symbol)) prev
      else map (fun x =>
                  if String.eqb (h_symbol x) symbol
                  then mkHolding (h_symbol x) newQty (h_avgBuy x) (h_sl x) (h_target x)
                  else x) prev
  end.

(** [sellStock(symbol, quantity)].  The holding is looked up in the captured
    [holdings]; the three updaters act on the pending ledger. *)
Definition sellStock (stocks : list Stock) (clk : Clock) (snap st : Ledger)
    (symbol : string) (quantity : number) : Outcome * Ledger :=
  match findStock stocks symbol with
  | None => (Returned, st)
  | Some live =>
      if negb (isFinite quantity) || (quantity <=? 0)
      then (Alerted QuantityAlert, st)
      else
        match findHolding (holdings snap) symbol with
        | None => (Alerted NotOwnedAlert, st)
        | Some existing =>
            if quantity >? h_qty existing
            then (Alerted (NotEnoughQuantityAlert (h_qty existing)), st)
            else
              let price := stock_price live in
              let charges := calculateCharges SELL quantity price in
              let grossCredit := quantity * price in
              let netCredit := grossCredit - total charges in
              let st1 :=
                pushOrder (mkOrder (orderId clk) (timeLabel clk) symbol SELL quantity
                             (toFixed2 price) "FILLED" (toFixed2 (total charges))) st in
              let st2 := setCash (fun c => toFixed2 (c + netCredit)) st1 in
              let st3 := setHoldings (sellReduce symbol quantity) st2 in
              (Filled SELL, st3)
        end
  end.

(** A handler called from a button: nothing is pending, so the captured and
    the pending ledger are the same. *)
Definition buy (stocks : list Stock) (clk : Clock) (st : Ledger)
    (symbol : string) (quantity : number) (slPrice targetPrice : option number)
    : Outcome * Ledger :=
  buyStock stocks clk st st symbol quantity slPrice targetPrice.

Definition sell (stocks : list Stock) (clk : Clock) (st : Ledger)
    (symbol : string) (quantity : number) : Outcome * Ledger :=
  sellStock stocks clk st st symbol quantity.

End F64.

(** * Properties *)

(** ** Numbers *)

Local Open Scope Q_scope.

Lemma Qle_bool_false (a b : Q) : Qle_bool a b = false <-> b < a.
Proof.
  split; intro H.
  - apply Qnot_le_lt. intro Hle. apply Qle_bool_iff in Hle. congruence.
  - destruct (Qle_bool a b) eqn:E; [|reflexivity].
    apply Qle_bool_iff in E. exfalso. apply (Qlt_not_le _ _ H E).
Qed.

(** Turn the boolean tests on rationals in the context and the goal into
    propositions. *)
Ltac qbool :=
  repeat match goal with
  | H : Qle_bool _ _ = true |- _ => apply Qle_bool_iff in H
  | H : Qle_bool _ _ = false |- _ => apply Qle_bool_false in H
  | H : negb _ = true |- _ => apply negb_true_iff in H
  | H : negb _ = false |- _ => apply negb_false_iff in H
  | |- negb _ = true => apply negb_true_iff
  | |- negb _ = false => apply negb_false_iff
  | |- Qle_bool _ _ = true => apply Qle_bool_iff
  | |- Qle_bool _ _ = false => apply Qle_bool_false
  end.

Lemma ltb_Fin (a b : Q) : (Fin a <? Fin b)%js = true <-> a < b.
Proof.
  simpl. rewrite negb_true_iff. apply Qle_bool_false.
Qed.

Lemma leb_Fin (a b : Q) : (Fin a <=? Fin b)%js = true <-> a <= b.
Proof.
  simpl. apply Qle_bool_iff.
Qed.

Lemma min_Fin (a b : Q) :
  min (Fin a) (Fin b) = Fin (if Qle_bool a b then a else b).
Proof.
  unfold min, leb. destruct (Qle_bool a b); reflexivity.
Qed.

Lemma max_Fin (a b : Q) :
  max (Fin a) (Fin b) = Fin (if Qle_bool a b then b else a).
Proof.
  unfold max, leb. destruct (Qle_bool a b); reflexivity.
Qed.

(** ** Fee calculator *)

(** The total as a function of the turnover alone. *)
Lemma total_of_turnover (side : Side) (q1 p1 q2 p2 : number) :
  (q1 * p1)%js = (q2 * p2)%js ->
  total (calculateCharges side q1 p1) = total (calculateCharges side q2 p2).
Proof.
  intro H. unfold calculateCharges. simpl. rewrite H. reflexivity.
Qed.



(** ** Price generator *)


(** With a finite draw and a finite drift the generator returns a finite
    price, whatever it is given: the prices the market tick feeds to the
    candles and the ledger are finite. *)
Lemma simulateNextPrice_finite (rnd price drift : number) :
  isFinite rnd = true -> isFinite drift = true ->
  isFinite (simulateNextPrice rnd price drift) = true.
Proof.
  intros Hr Hd. unfold simulateNextPrice.
  destruct price as [p| | |]; try reflexivity.
  destruct rnd as [u| | |]; try discriminate Hr.
  destruct drift as [d| | |]; try discriminate Hd.
  reflexivity.
Qed.

Lemma shock_range (u : Q) :
  0 <= u < 1 ->
  - 0.000075 <= (u + - 0.5) * 0.00015 /\ (u + - 0.5) * 0.00015 < 0.000075.
Proof.
  intros [H0 H1]. split; lra.
Qed.

(** ** Ledger *)

(** The guard [!Number.isFinite(quantity) || quantity <= 0] is the negation of
    "positive finite". *)
Lemma quantity_guard (q : number) :
  negb (isFinite q) || (q <=? Fin 0)%js = negb (positiveFinite q).
Proof.
  unfold positiveFinite, gtb.
  destruct q as [a| | |]; try reflexivity.
  simpl. rewrite negb_involutive. reflexivity.
Qed.

Lemma find_map_same_key (symbol : string) (f : Holding -> Holding)
    (hs : list Holding) :
  (forall h, h_symbol (f h) = h_symbol h) ->
  findHolding (map f hs) symbol = option_map f (findHolding hs symbol).
Proof.
  intro Hf. unfold findHolding.
  induction hs as [|h hs IH]; simpl.
  - reflexivity.
  - rewrite Hf. destruct (String.eqb (h_symbol h) symbol); [reflexivity | exact IH].
Qed.

Lemma findHolding_symbol (hs : list Holding) (symbol : string) (h : Holding) :
  findHolding hs symbol = Some h -> h_symbol h = symbol.
Proof.
  intro H. apply find_some in H. destruct H as [_ H].
  apply String.eqb_eq. exact H.
Qed.

(** What a buy that passes both guards does to the pending ledger. *)
Lemma buyStock_filled (stocks : list Stock) (clk : Clock) (snap st st' : Ledger)
    (symbol : string) (quantity : number) (slPrice targetPrice : option number) :
  buyStock stocks clk snap st symbol quantity slPrice targetPrice = (Filled BUY, st') ->
  exists live,
    findStock stocks symbol = Some live /\
    positiveFinite quantity = true /\
    let price := stock_price live in
    let charges := calculateCharges BUY quantity price in
    let totalDebit := (quantity * price + total charges)%js in
    (totalDebit >? cash snap)%js = false /\
    cash st' = toFixed2 (cash st - totalDebit)%js /\
    holdings st' = buyUpsert symbol quantity price slPrice targetPrice (holdings st) /\
    orders st' =
      firstn 60 (mkOrder (orderId clk) (timeLabel clk) symbol BUY quantity
                   (toFixed2 price) "FILLED" (toFixed2 (total charges)) :: orders st).
Proof.
  unfold buyStock. intro H.
  destruct (findStock stocks symbol) as [live|]; [|discriminate H].
  exists live. split; [reflexivity|].
  rewrite quantity_guard in H.
  destruct (positiveFinite quantity); [|discriminate H].
  split; [reflexivity|].
  cbv zeta in *.
  destruct (_ >? cash snap)%js; [discriminate H|].
  injection H as <-. repeat split.
Qed.

(** What a sell that passes every guard does to the pending ledger. *)
Lemma sellStock_filled (stocks : list Stock) (clk : Clock) (snap st st' : Ledger)
    (symbol : string) (quantity : number) :
  sellStock stocks clk snap st symbol quantity = (Filled SELL, st') ->
  exists live existing,
    findStock stocks symbol = Some live /\
    positiveFinite quantity = true /\
    findHolding (holdings snap) symbol = Some existing /\
    (quantity >? h_qty existing)%js = false /\
    let price := stock_price live in
    let charges := calculateCharges SELL quantity price in
    let netCredit := (quantity * price - total charges)%js in
    cash st' = toFixed2 (cash st + netCredit)%js /\
    holdings st' = sellReduce symbol quantity (holdings st) /\
    orders st' =
      firstn 60 (mkOrder (orderId clk) (timeLabel clk) symbol SELL quantity
                   (toFixed2 price) "FILLED" (toFixed2 (total charges)) :: orders st).
Proof.
  unfold sellStock. intro H.
  destruct (findStock stocks symbol) as [live|]; [|discriminate H].
  rewrite quantity_guard in H.
  destruct (positiveFinite quantity); [|discriminate H].
  destruct (findHolding (holdings snap) symbol) as [existing|]; [|discriminate H].
  exists live, existing.
  destruct (quantity >? h_qty existing)%js; [discriminate H|].
  cbv zeta in *. injection H as <-. repeat split.
Qed.

(** C9: a sell whose quantity is not a positive finite number changes
    nothing in the pending ledger.  It ends with the quantity alert whenever
    the symbol has a live quote, whatever the holdings are (held or not, in
    any quantity): the guard comes before the holding is looked up.  Without a
    live quote the handler has returned before that. *)
Theorem sellStock_invalid_quantity_rejected :
  forall (stocks : list Stock) (clk : Clock) (snap st : Ledger) (symbol : string)
         (quantity : number),
    positiveFinite quantity = false ->
    snd (sellStock stocks clk snap st symbol quantity) = st /\
    fst (sellStock stocks clk snap st symbol quantity)
    = match findStock stocks symbol with
      | Some _ => Alerted QuantityAlert
      | None => Returned
      end.
Proof.
  intros stocks clk snap st symbol quantity Hq.
  unfold sellStock.
  destruct (findStock stocks symbol) as [live|].
  - rewrite quantity_guard, Hq. split; reflexivity.
  - split; reflexivity.
Qed.

Lemma sellStock_invalid_quantity_rejected_witness :
  let stocks := [mkStock "TCS" (Fin 500)] in
  let clk := mkClock 1700000000000 "10:15:00" in
  let st := mkLedger (Fin 1000) [mkHolding "TCS" (Fin 3) (Fin 450) None None] [] in
  positiveFinite (Fin 0) = false /\
  snd (sellStock stocks clk st st "TCS" (Fin 0)) = st /\
  fst (sellStock stocks clk st st "TCS" (Fin 0)) = Alerted QuantityAlert.
Proof.
  intros stocks clk st.
  split; [reflexivity|].
  apply (@sellStock_invalid_quantity_rejected stocks clk st st "TCS" (Fin 0)).
  reflexivity.
Defined.

(** The other values the guard stops. *)
Example positiveFinite_rejects :
  positiveFinite NaN = false /\ positiveFinite PosInf = false /\
  positiveFinite NegInf = false /\ positiveFinite (Fin (-2)) = false /\
  positiveFinite (Fin 0.5) = true.
Proof.
  repeat split.
Qed.



Lemma Qmake_100 (z : Z) : z # 100 == inject_Z z * (1 # 100).
Proof.
  unfold Qeq. simpl. lia.
Qed.


Lemma calculateCharges_total_finite (side : Side) (q p : Q) :
  exists T : Q, total (calculateCharges side (Fin q) (Fin p)) = Fin T.
Proof.
  unfold calculateCharges. cbn [total mul]. rewrite min_Fin.
  destruct side; cbn [Side_eqb add mul]; eexists; reflexivity.
Qed.

Lemma positiveFinite_inv (x : number) :
  positiveFinite x = true -> exists q : Q, x = Fin q /\ 0 < q.
Proof.
  unfold positiveFinite, gtb.
  destruct x as [q| | |]; try discriminate.
  intro H. exists q. split; [reflexivity|].
  cbn [isFinite andb] in H. apply ltb_Fin in H. exact H.
Qed.

(** ** Auto-exit monitor *)

Lemma gtb_irrefl_finite (x : number) : isFinite x = true -> (x >? x)%js = false.
Proof.
  destruct x as [a| | |]; try discriminate. intros _.
  unfold gtb. cbn [ltb].
  apply negb_false_iff. apply Qle_bool_iff. apply Qle_refl.
Qed.

(** A full exit of a holding of the captured ledger is filled, whatever the
    pending ledger has become. *)
Lemma sellStock_full_exit (stocks : list Stock) (clk : Clock) (snap st : Ledger)
    (h : Holding) (live : Stock) :
  findStock stocks (h_symbol h) = Some live ->
  findHolding (holdings snap) (h_symbol h) = Some h ->
  positiveFinite (h_qty h) = true ->
  let price := stock_price live in
  let charges := calculateCharges SELL (h_qty h) price in
  let netCredit := (h_qty h * price - total charges)%js in
  sellStock stocks clk snap st (h_symbol h) (h_qty h)
  = (Filled SELL,
     mkLedger (toFixed2 (cash st + netCredit)%js)
       (sellReduce (h_symbol h) (h_qty h) (holdings st))
       (firstn 60
          (mkOrder (orderId clk) (timeLabel clk) (h_symbol h) SELL (h_qty h)
             (toFixed2 price) "FILLED" (toFixed2 (total charges)) :: orders st))).
Proof.
  intros Hlive Hheld Hq price charges netCredit.
  unfold sellStock. rewrite Hlive, quantity_guard, Hq, Hheld. cbn [negb].
  rewrite gtb_irrefl_finite.
  - reflexivity.
  - unfold positiveFinite in Hq. apply andb_true_iff in Hq. apply Hq.
Qed.

Lemma targetHit_positive (h : Holding) (ltp : number) :
  targetHit h ltp = true -> (h_qty h >? Fin 0)%js = true.
Proof.
  unfold targetHit. destruct (h_target h); [|discriminate].
  intro H. apply andb_true_iff in H. apply H.
Qed.

(** When the target and the stop-loss of a captured holding are both hit, the
    body of the loop runs [sellStock] twice against the same captured
    holdings: two orders are logged and the net credit is added to the cash
    twice, while the holdings updater finds nothing left the second time. *)
Lemma autoExitHolding_both_hit (stocks : list Stock) (clk : Clock)
    (snap st : Ledger) (h : Holding) (live : Stock) :
  findStock stocks (h_symbol h) = Some live ->
  findHolding (holdings snap) (h_symbol h) = Some h ->
  isFinite (h_qty h) = true ->
  targetHit h (stock_price live) = true ->
  stopLossHit h (stock_price live) = true ->
  let price := stock_price live in
  let charges := calculateCharges SELL (h_qty h) price in
  let netCredit := (h_qty h * price - total charges)%js in
  let order :=
    mkOrder (orderId clk) (timeLabel clk) (h_symbol h) SELL (h_qty h)
      (toFixed2 price) "FILLED" (toFixed2 (total charges)) in
  let st' := autoExitHolding stocks clk snap st h in
  cash st' = toFixed2 (toFixed2 (cash st + netCredit) + netCredit)%js /\
  orders st' = firstn 60 (order :: firstn 60 (order :: orders st)) /\
  holdings st'
  = sellReduce (h_symbol h) (h_qty h)
      (sellReduce (h_symbol h) (h_qty h) (holdings st)).
Proof.
  intros Hlive Hheld Hfin Htarget Hsl price charges netCredit order st'.
  assert (Hq : positiveFinite (h_qty h) = true).
  { unfold positiveFinite. rewrite Hfin, (targetHit_positive _ _ Htarget).
    reflexivity. }
  subst st'. unfold autoExitHolding.
  rewrite Hlive. cbv zeta. rewrite Htarget, Hsl.
  rewrite !(fun st0 => @sellStock_full_exit stocks clk snap st0 h live Hlive Hheld Hq).
  cbn [snd cash orders holdings]. repeat split.
Qed.

(** C1 (the code at the failing input): a holding of 10 with target 110 and
    stop-loss 120 and a live price of 115 hits both levels in one cycle.  The
    monitor then logs two SELL orders for the symbol and credits the cash
    twice: 102271.52, where one sell of the 10 units gives 101135.76.  The
    holding is removed once. *)
Theorem autoExit_sells_twice :
  let clk := mkClock 1700000000000 "10:15:00" in
  let stocks := [mkStock "TCS" (Fin 115)] in
  let h := mkHolding "TCS" (Fin 10) (Fin 100) (Some (Fin 120)) (Some (Fin 110)) in
  let snap := mkLedger (Fin 100000) [h] [] in
  let st' := autoExit stocks clk snap in
  targetHit h (Fin 115) = true /\
  stopLossHit h (Fin 115) = true /\
  List.length (sellOrdersOf "TCS" (orders st')) = 2%nat /\
  (cash st' =n= Fin 102271.52)%js /\
  (cash (snd (sell stocks clk snap "TCS" (Fin 10))) =n= Fin 101135.76)%js /\
  List.length (sellOrdersOf "TCS" (orders (snd (sell stocks clk snap "TCS" (Fin 10)))))
  = 1%nat /\
  holdings st' = [].
Proof.
  intros clk stocks h snap st'.
  repeat split.
Qed.

(** ** Candle aggregator *)

Lemma setLast_app (closed : list Candle) (c x : Candle) :
  setLast (closed ++ [c]) x = closed ++ [x].
Proof.
  induction closed as [|y closed IH].
  - reflexivity.
  - cbn [app]. destruct closed as [|z closed].
    + reflexivity.
    + cbn [app] in *. cbn [setLast]. f_equal. exact IH.
Qed.

Lemma Forall_setLast (P : Candle -> Prop) (l : list Candle) (x : Candle) :
  Forall P l -> P x -> Forall P (setLast l x).
Proof.
  intros Hl Hx. induction Hl as [|y l Hy Hl IH].
  - constructor.
  - destruct l as [|z l].
    + constructor; [exact Hx | constructor].
    + cbn [setLast]. constructor; [exact Hy | exact IH].
Qed.

Lemma Forall_sliceLast (P : Candle -> Prop) (n : nat) (l : list Candle) :
  Forall P l -> Forall P (sliceLast n l).
Proof.
  intro H. unfold sliceLast.
  rewrite <- (firstn_skipn (List.length l - n) l) in H.
  apply Forall_app in H. apply H.
Qed.

(** Slicing keeps the two newest candles. *)
Lemma sliceLast_two (n : nat) (l : list Candle) (a b : Candle) :
  sliceLast (2 + n) (l ++ [a; b]) = sliceLast n l ++ [a; b].
Proof.
  unfold sliceLast. rewrite length_app. cbn [List.length].
  replace (List.length l + 2 - (2 + n))%nat with (List.length l - n)%nat by lia.
  rewrite skipn_app.
  replace (List.length l - n - List.length l)%nat with 0%nat by lia.
  reflexivity.
Qed.

Lemma sliceLast_one (n : nat) (l : list Candle) (a : Candle) :
  sliceLast (1 + n) (l ++ [a]) = sliceLast n l ++ [a].
Proof.
  unfold sliceLast. rewrite length_app. cbn [List.length].
  replace (List.length l + 1 - (1 + n))%nat with (List.length l - n)%nat by lia.
  rewrite skipn_app.
  replace (List.length l - n - List.length l)%nat with 0%nat by lia.
  reflexivity.
Qed.

Lemma sliceLast_length (n : nat) (l : list Candle) :
  List.length (sliceLast n l) = Nat.min n (List.length l).
Proof.
  unfold sliceLast. rewrite length_skipn. lia.
Qed.

(** The state after an ingest that brings the open candle to the threshold. *)
Lemma ingest_at_threshold (clk : Clock) (price : number) (st : Aggregator)
    (current : Candle) (closed : list Candle) :
  candleRef st = Some current ->
  candles st = closed ++ [current] ->
  (c_ticks current + 1 >= CANDLE_TICKS)%Z ->
  let sealed :=
    mkCandle (c_id current) (timeLabel clk) (c_open current)
      (max (c_high current) price) (min (c_low current) price) price
      (c_ticks current + 1) in
  let next := mkCandle (now clk + 1) (timeLabel clk) price price price price 0 in
  ingest clk price st
  = mkAggregator (sliceLast 298 closed ++ [sealed; next]) (Some next).
Proof.
  intros Href Hlist Hticks sealed next.
  unfold ingest. rewrite Href, Hlist, setLast_app. cbv zeta.
  cbn [c_ticks c_close].
  destruct (c_ticks current + 1 >=? CANDLE_TICKS)%Z eqn:E.
  - f_equal. rewrite <- app_assoc. apply (sliceLast_two 298).
  - rewrite Z.geb_leb in E. apply Z.leb_gt in E. lia.
Qed.

(** C5: when the ingest brings the tick count of the open candle to the
    threshold of 6, the updated candle stays in the history as the last closed
    one and exactly one candle is opened after it, with open, high, low and
    close equal to the close of the sealed candle (the ingested price) and a
    tick count of 0.  The history grows by that one candle, up to the cap of
    300. *)
Theorem ingest_seals_at_threshold :
  forall (clk : Clock) (price : number) (st : Aggregator)
         (current : Candle) (closed : list Candle),
    candleRef st = Some current ->
    candles st = closed ++ [current] ->
    (c_ticks current + 1 >= CANDLE_TICKS)%Z ->
    let sealed :=
      mkCandle (c_id current) (timeLabel clk) (c_open current)
        (max (c_high current) price) (min (c_low current) price) price
        (c_ticks current + 1) in
    let next :=
      mkCandle (now clk + 1) (timeLabel clk) (c_close sealed) (c_close sealed)
        (c_close sealed) (c_close sealed) 0 in
    candleRef (ingest clk price st) = Some next /\
    candles (ingest clk price st) = sliceLast 298 closed ++ [sealed; next] /\
    List.length (candles (ingest clk price st))
    = Nat.min 300 (List.length (candles st) + 1).
Proof.
  intros clk price st current closed Href Hlist Hticks sealed next.
  rewrite (@ingest_at_threshold clk price st current closed Href Hlist Hticks).
  cbn [candleRef candles].
  split; [reflexivity|]. split; [reflexivity|].
  rewrite length_app, sliceLast_length, Hlist, length_app.
  cbn [List.length]. lia.
Qed.

Lemma ingest_seals_at_threshold_witness :
  let clk := mkClock 1700000000000 "10:15:06" in
  let current := mkCandle 1699999990000 "10:15:05" (Fin 100) (Fin 101.5)
                   (Fin 99.2) (Fin 100.4) 5 in
  let st := mkAggregator [current] (Some current) in
  (c_ticks current + 1 >= CANDLE_TICKS)%Z /\
  candleRef (ingest clk (Fin 102) st)
  = Some (mkCandle 1700000000001 "10:15:06" (Fin 102) (Fin 102) (Fin 102) (Fin 102) 0) /\
  candles (ingest clk (Fin 102) st)
  = [mkCandle 1699999990000 "10:15:06" (Fin 100) (Fin 102) (Fin 99.2) (Fin 102) 6;
     mkCandle 1700000000001 "10:15:06" (Fin 102) (Fin 102) (Fin 102) (Fin 102) 0].
Proof.
  intros clk current st.
  assert (Hticks : (c_ticks current + 1 >= CANDLE_TICKS)%Z)
    by (vm_compute; discriminate).
  destruct (@ingest_seals_at_threshold clk (Fin 102) st current [] eq_refl eq_refl
              Hticks) as [Href [Hlist _]].
  split; [exact Hticks|]. split.
  - rewrite Href. reflexivity.
  - rewrite Hlist. reflexivity.
Defined.

(** Below the threshold the open candle is updated in place: nothing is
    sealed and no candle is added. *)
Lemma ingest_below_threshold (clk : Clock) (price : number) (st : Aggregator)
    (current : Candle) (closed : list Candle) :
  candleRef st = Some current ->
  candles st = closed ++ [current] ->
  (c_ticks current + 1 < CANDLE_TICKS)%Z ->
  let updated :=
    mkCandle (c_id current) (timeLabel clk) (c_open current)
      (max (c_high current) price) (min (c_low current) price) price
      (c_ticks current + 1) in
  ingest clk price st
  = mkAggregator (sliceLast 299 closed ++ [updated]) (Some updated).
Proof.
  intros Href Hlist Hticks updated.
  unfold ingest. rewrite Href, Hlist, setLast_app. cbv zeta. cbn [c_ticks].
  destruct (c_ticks current + 1 >=? CANDLE_TICKS)%Z eqn:E.
  - rewrite Z.geb_leb in E. apply Z.leb_le in E. lia.
  - f_equal. apply (sliceLast_one 299).
Qed.

(** The open candle stays the last candle of the history, so the hypothesis
    of the sealing theorem holds in every state the effect reaches. *)
Lemma ingest_openIsLast (clk : Clock) (price : number) (st : Aggregator) :
  openIsLast st -> openIsLast (ingest clk price st).
Proof.
  unfold openIsLast at 1. intro H.
  destruct (candleRef st) as [current|] eqn:Href.
  - destruct H as [closed Hlist].
    destruct (Z_lt_ge_dec (c_ticks current + 1) CANDLE_TICKS) as [Hlt|Hge].
    + rewrite (@ingest_below_threshold clk price st current closed Href Hlist Hlt).
      unfold openIsLast. cbn [candleRef candles]. eexists. reflexivity.
    + rewrite (@ingest_at_threshold clk price st current closed Href Hlist Hge).
      unfold openIsLast. cbn [candleRef candles].
      eexists (_ ++ [_]). rewrite <- app_assoc. reflexivity.
  - unfold ingest. rewrite Href, H. unfold openIsLast. cbn [candleRef candles].
    exists []. reflexivity.
Qed.

Lemma ingestAll_openIsLast (ticks : list (Clock * number)) (st : Aggregator) :
  openIsLast st -> openIsLast (ingestAll ticks st).
Proof.
  revert st. unfold ingestAll.
  induction ticks as [|t ticks IH]; intros st H.
  - exact H.
  - cbn [fold_left]. apply IH. apply ingest_openIsLast. exact H.
Qed.

(** From the empty state, the first six prices make one candle of six ticks
    and open the next one; five prices leave a single open candle. *)
Example six_ticks_seal_once (clk : Clock) (p1 p2 p3 p4 p5 p6 : number) :
  let st5 := ingestAll [(clk, p1); (clk, p2); (clk, p3); (clk, p4); (clk, p5)]
               emptyAggregator in
  let st6 := ingest clk p6 st5 in
  List.length (candles st5) = 1%nat /\
  option_map c_ticks (candleRef st5) = Some 5%Z /\
  List.length (candles st6) = 2%nat /\
  map c_ticks (candles st6) = [6%Z; 0%Z] /\
  candleRef st6 = Some (mkCandle (now clk + 1) (timeLabel clk) p6 p6 p6 p6 0).
Proof.
  repeat split.
Qed.

(** Case analysis on numbers, then on the rational comparisons of the goal;
    the boolean hypotheses are taken along. *)
Ltac num_cases :=
  repeat match goal with
  | H : @eq bool _ _ |- _ => revert H
  end;
  repeat match goal with
  | x : number |- _ => destruct x
  end;
  cbn [min max leb isNaN];
  repeat match goal with
  | |- context [Qle_bool ?a ?b] =>
      let E := fresh "E" in destruct (Qle_bool a b) eqn:E; cbn [leb]
  end;
  intros; try congruence; qbool; try lra.

(** A well-formed candle has its open between its low and its high. *)
Lemma candleOk_open_between (c : Candle) :
  candleOk c = true ->
  (c_low c <=? c_open c)%js = true /\ (c_open c <=? c_high c)%js = true.
Proof.
  unfold candleOk. destruct c as [i t o h l cl n]. cbn [c_low c_open c_close c_high].
  intro H. apply andb_true_iff in H. destruct H as [H H3].
  apply andb_true_iff in H. destruct H as [H1 H2].
  split; clear H2 i t n.
  - clear H3 h. num_cases.
  - clear H1 l. num_cases.
Qed.

Lemma candleOk_flat (i : Z) (t : string) (p : number) (n : Z) :
  isNaN p = false -> candleOk (mkCandle i t p p p p n) = true.
Proof.
  intro H. unfold candleOk. cbn [c_low c_open c_close c_high].
  destruct p as [a| | |]; try discriminate H; try reflexivity.
  cbn [min max leb].
  assert (E : Qle_bool a a = true) by (apply Qle_bool_iff; apply Qle_refl).
  rewrite !E. cbn [leb]. rewrite E. reflexivity.
Qed.

Lemma candleOk_update (c : Candle) (t : string) (p : number) :
  candleOk c = true ->
  isNaN p = false ->
  candleOk (mkCandle (c_id c) t (c_open c) (max (c_high c) p) (min (c_low c) p) p
              (c_ticks c + 1)) = true.
Proof.
  intros Hc Hp. apply candleOk_open_between in Hc. destruct Hc as [Hlo Hhi].
  unfold candleOk. cbn [c_low c_open c_close c_high].
  destruct c as [i t0 o h l cl n]. cbn [c_low c_open c_close c_high] in *.
  clear i t0 cl n t.
  rewrite !andb_true_iff. repeat split.
  - clear Hhi h. num_cases.
  - clear Hhi h. num_cases.
  - clear Hlo l. num_cases.
Qed.

(** One ingest of a price that is not [NaN] keeps every candle well formed. *)
Lemma ingest_aggregatorOk (clk : Clock) (price : number) (st : Aggregator) :
  isNaN price = false -> aggregatorOk st -> aggregatorOk (ingest clk price st).
Proof.
  intros Hp [Hall Hopen]. unfold ingest.
  destruct (candleRef st) as [current|] eqn:Href.
  - pose proof (@candleOk_update current (timeLabel clk) price
                  (Hopen current eq_refl) Hp) as Hup.
    cbv zeta. cbn [c_ticks c_close].
    destruct (c_ticks current + 1 >=? CANDLE_TICKS)%Z.
    + split; cbn [candles candleRef].
      * apply Forall_sliceLast. apply Forall_app. split.
        -- apply Forall_setLast; assumption.
        -- constructor; [|constructor]. apply candleOk_flat. exact Hp.
      * intros c Hc. injection Hc as <-. apply candleOk_flat. exact Hp.
    + split; cbn [candles candleRef].
      * apply Forall_sliceLast. apply Forall_setLast; assumption.
      * intros c Hc. injection Hc as <-. exact Hup.
  - cbv zeta. split; cbn [candles candleRef].
    + apply Forall_app. split; [exact Hall|].
      constructor; [|constructor]. apply candleOk_flat. exact Hp.
    + intros c Hc. injection Hc as <-. apply candleOk_flat. exact Hp.
Qed.

Lemma emptyAggregator_ok : aggregatorOk emptyAggregator.
Proof.
  split.
  - constructor.
  - intros c H. discriminate H.
Qed.

(** C6: after any run of ingests from the empty state, of prices that are
    numbers other than [NaN], every candle of the history, closed or open,
    satisfies [low <= min(open, close) <= max(open, close) <= high]. *)
Theorem ingestAll_candles_ok :
  forall ticks : list (Clock * number),
    Forall (fun t => isNaN (snd t) = false) ticks ->
    aggregatorOk (ingestAll ticks emptyAggregator).
Proof.
  intros ticks Hticks. unfold ingestAll.
  generalize emptyAggregator emptyAggregator_ok.
  induction Hticks as [|t ticks Ht Hticks IH]; intros st Hst.
  - exact Hst.
  - cbn [fold_left]. apply IH. apply ingest_aggregatorOk; assumption.
Qed.

Lemma ingestAll_candles_ok_witness :
  let clk := mkClock 1700000000000 "10:15:00" in
  let ticks := [(clk, Fin 100); (clk, Fin 101.5); (clk, Fin 99.2); (clk, Fin 100.4);
                (clk, Fin 100.1); (clk, Fin 102); (clk, Fin 98.75)] in
  Forall (fun t => isNaN (snd t) = false) ticks /\
  List.length (candles (ingestAll ticks emptyAggregator)) = 2%nat /\
  Forall (fun c => candleOk c = true) (candles (ingestAll ticks emptyAggregator)).
Proof.
  intros clk ticks.
  assert (H : Forall (fun t => isNaN (snd t) = false) ticks)
    by (repeat constructor).
  split; [exact H|]. split; [reflexivity|].
  exact (proj1 (ingestAll_candles_ok H)).
Defined.

(** The hypothesis on the prices is needed: a [NaN] price leaves a candle for
    which the comparisons of the invariant are all false. *)
Example ingest_NaN_not_ok (clk : Clock) :
  Forall (fun c => candleOk c = false) (candles (ingest clk NaN emptyAggregator)).
Proof.
  repeat constructor.
Qed.

(** ** Helpers *)

Lemma clamp_bounds (v a b : number) :
  isNaN v = false ->
  (a <=? b)%js = true ->
  (a <=? clamp v a b)%js = true /\ (clamp v a b <=? b)%js = true.
Proof.
  intros Hv Hab. unfold clamp. split; num_cases.
Qed.

(** X1: for bounds [a <= b] and a value that is not [NaN], [clamp(v, a, b)]
    lies between [a] and [b], and it is [v] itself when [v] already does. *)
Theorem clamp_within_bounds :
  forall v a b : number,
    isNaN v = false ->
    (a <=? b)%js = true ->
    (a <=? clamp v a b)%js = true /\
    (clamp v a b <=? b)%js = true /\
    ((a <=? v)%js = true -> (v <=? b)%js = true -> (clamp v a b =n= v)%js).
Proof.
  intros v a b Hv Hab.
  destruct (clamp_bounds v a b Hv Hab) as [H1 H2].
  split; [exact H1|]. split; [exact H2|].
  unfold clamp. intros Hav Hvb. revert Hv Hab Hav Hvb.
  destruct v as [x| | |], a as [y| | |], b as [z| | |];
    cbn [min max leb isNaN num_eq]; intros; try congruence; try exact I;
    repeat match goal with
    | |- context [Qle_bool ?p ?q] =>
        let E := fresh "E" in destruct (Qle_bool p q) eqn:E; cbn [leb num_eq]
    end;
    try congruence; try exact I; qbool; try lra;
    try (apply Qle_antisym; assumption).
Qed.

Lemma clamp_within_bounds_witness :
  (Fin 20 <=? clamp (Fin 600) (Fin 20) (Fin 120))%js = true /\
  (clamp (Fin 600) (Fin 20) (Fin 120) <=? Fin 120)%js = true /\
  (clamp (Fin 60) (Fin 20) (Fin 120) =n= Fin 60)%js.
Proof.
  destruct (@clamp_within_bounds (Fin 600) (Fin 20) (Fin 120) eq_refl eq_refl)
    as [H1 [H2 _]].
  destruct (@clamp_within_bounds (Fin 60) (Fin 20) (Fin 120) eq_refl eq_refl)
    as [_ [_ H3]].
  split; [exact H1|]. split; [exact H2|].
  apply H3; reflexivity.
Defined.

(** ** Market tick *)


Lemma round2_nonneg (x : Q) : 0 <= x -> 0 <= round2 x.
Proof.
  intro Hx. unfold round2.
  assert (E : Qle_bool 0 x = true) by (apply Qle_bool_iff; exact Hx).
  rewrite E, Qmake_100.
  assert (H : (0 <= Qfloor (x * 100 + (1 # 2)))%Z).
  { change 0%Z with (Qfloor 0). apply Qfloor_resp_le. lra. }
  rewrite Zle_Qle in H. change (inject_Z 0) with 0 in H. lra.
Qed.

Lemma drift_band (x : Q) :
  exists d : Q,
    max (min (Fin x) (Fin 0.00025)) (Fin (-0.00025)) = Fin d /\
    - 0.00025 <= d <= 0.00025.
Proof.
  rewrite min_Fin. destruct (Qle_bool x 0.00025) eqn:E1; rewrite max_Fin.
  - destruct (Qle_bool x (-0.00025)) eqn:E2;
      eexists; (split; [reflexivity|]); qbool; split; lra.
  - eexists. split; [reflexivity|]. cbn. split; lra.
Qed.

(** The drift a tick leaves, as a rational within the band. *)
Lemma tickQuote_drift (rDrift rShock : number) (s : Quote) :
  isFinite rDrift = true ->
  exists d : Q,
    q_drift (tickQuote rDrift rShock s) = Fin d /\
    - 0.00025 <= d <= 0.00025.
Proof.
  intro Hr. destruct rDrift as [r| | |]; try discriminate Hr.
  unfold tickQuote. cbn [q_drift].
  destruct (isFinite (q_drift s)) eqn:Hd.
  - destruct (q_drift s) as [d0| | |]; try discriminate Hd.
    cbn [sub neg add mul]. apply drift_band.
  - cbn [sub neg add mul]. apply drift_band.
Qed.

(** X2: whatever drift a quote carries (finite or not), after a tick with a
    finite draw its drift lies in the band [[-0.00025, 0.00025]]; this holds
    for every quote of the list the tick returns. *)
Theorem tickStocks_drift_in_band :
  forall (draws : nat -> number * number) (stocks : list Quote),
    (forall i, isFinite (fst (draws i)) = true) ->
    Forall (fun s => (Fin (-0.00025) <=? q_drift s)%js = true
                     /\ (q_drift s <=? Fin 0.00025)%js = true)
      (tickStocks draws stocks).
Proof.
  intros draws stocks Hdraws. unfold tickStocks. generalize 0%nat.
  induction stocks as [|s rest IH]; intro i; cbn [tickFrom].
  - constructor.
  - constructor; [|apply IH].
    destruct (@tickQuote_drift (fst (draws i)) (snd (draws i)) s (Hdraws i))
      as [d [Hd [Hlo Hhi]]].
    rewrite Hd. split; apply leb_Fin; assumption.
Qed.

Lemma tickStocks_drift_in_band_witness :
  let draws := fun _ : nat => (Fin 0.9, Fin 0.25) in
  let stocks := [mkQuote "TCS" (Fin 3500) (Fin 3500) (Fin 3501.2) (Fin 0.000249)
                   (Fin 1.2) (Fin 0.03);
                 mkQuote "INFY" NaN (Fin 1500) (Fin 1500) PosInf (Fin 0) (Fin 0)] in
  Forall (fun s => (Fin (-0.00025) <=? q_drift s)%js = true
                   /\ (q_drift s <=? Fin 0.00025)%js = true)
    (tickStocks draws stocks).
Proof.
  intros draws stocks.
  apply (@tickStocks_drift_in_band draws stocks).
  intro i. reflexivity.
Defined.



(** X4: a tick keeps the list of symbols (no quote is added, dropped or
    reordered), records the previous price as [last], and keeps the day's
    open of every quote whose open is finite. *)
Theorem tickStocks_bookkeeping :
  forall (draws : nat -> number * number) (stocks : list Quote),
    map q_symbol (tickStocks draws stocks) = map q_symbol stocks /\
    map q_last (tickStocks draws stocks) = map q_price stocks /\
    (Forall (fun s => isFinite (q_open s) = true) stocks ->
     map q_open (tickStocks draws stocks) = map q_open stocks).
Proof.
  intros draws stocks. unfold tickStocks. generalize 0%nat.
  induction stocks as [|s rest IH]; intro i; cbn [tickFrom map].
  - repeat split.
  - destruct (IH (S i)) as [Hsym [Hlast Hopen]].
    split; [|split].
    + cbn [tickQuote q_symbol]. rewrite Hsym. reflexivity.
    + cbn [tickQuote q_last]. rewrite Hlast. reflexivity.
    + intro Hall. inversion Hall as [|s0 rest0 Hs Hrest]; subst.
      unfold tickQuote at 1. cbn [q_open]. rewrite Hs, (Hopen Hrest).
      reflexivity.
Qed.

Lemma tickStocks_bookkeeping_witness :
  let draws := fun _ : nat => (Fin 0.9, Fin 0.25) in
  let stocks := [mkQuote "TCS" (Fin 3500) (Fin 3498) (Fin 3501.2) (Fin 0.0002)
                   (Fin 1.2) (Fin 0.03);
                 mkQuote "INFY" (Fin 1500) (Fin 1500) (Fin 1499) (Fin 0) (Fin (-1))
                   (Fin (-0.07))] in
  map q_symbol (tickStocks draws stocks) = ["TCS"; "INFY"]%string /\
  map q_open (tickStocks draws stocks) = [Fin 3500; Fin 1500].
Proof.
  intros draws stocks.
  destruct (tickStocks_bookkeeping draws stocks) as [Hsym [_ Hopen]].
  split; [exact Hsym|].
  apply Hopen. repeat constructor.
Defined.

(** ** Wallet *)

(** X5: adding or withdrawing an amount that is not a positive finite number
    does nothing, and a withdrawal above the captured cash is refused with an
    alert; in each case the pending ledger is returned as it was. *)
Theorem wallet_rejections_leave_ledger :
  forall (amt : number) (snap st : Ledger),
    (positiveFinite amt = false ->
     handleAddFunds amt st = (FundsReturned, st) /\
     handleWithdraw amt snap st = (FundsReturned, st)) /\
    (positiveFinite amt = true -> (amt >? cash snap)%js = true ->
     handleWithdraw amt snap st = (FundsAlerted, st)).
Proof.
  intros amt snap st. unfold handleAddFunds, handleWithdraw.
  rewrite quantity_guard. split.
  - intros ->. split; reflexivity.
  - intros -> ->. reflexivity.
Qed.

Lemma wallet_rejections_leave_ledger_witness :
  let st := mkLedger (Fin 2500) [mkHolding "TCS" (Fin 3) (Fin 450) None None] [] in
  handleAddFunds (Fin (-100)) st = (FundsReturned, st) /\
  handleWithdraw NaN st st = (FundsReturned, st) /\
  handleWithdraw (Fin 2500.01) st st = (FundsAlerted, st).
Proof.
  intro st.
  destruct (wallet_rejections_leave_ledger (Fin (-100)) st st) as [H1 _].
  destruct (wallet_rejections_leave_ledger NaN st st) as [H2 _].
  destruct (wallet_rejections_leave_ledger (Fin 2500.01) st st) as [_ H3].
  split; [apply H1; reflexivity|].
  split; [apply H2; reflexivity|].
  apply H3; reflexivity.
Defined.

(** X6: a withdrawal made with nothing pending never overdraws: when it is
    done the cash, if it was a number other than [NaN], is not negative, and
    the holdings and the order log are untouched. *)
Theorem handleWithdraw_never_overdraws :
  forall (amt : number) (st st' : Ledger),
    handleWithdraw amt st st = (FundsDone, st') ->
    isNaN (cash st) = false ->
    (Fin 0 <=? cash st')%js = true /\
    holdings st' = holdings st /\ orders st' = orders st.
Proof.
  intros amt st st' H Hcash. unfold handleWithdraw in H.
  rewrite quantity_guard in H.
  destruct (positiveFinite amt) eqn:Hamt; [|discriminate H].
  cbn [negb] in H.
  destruct (amt >? cash st)%js eqn:Hgt; [discriminate H|].
  injection H as <-. cbn [setCash cash holdings orders].
  split; [|split; reflexivity].
  destruct (positiveFinite_inv _ Hamt) as [a [-> Ha]].
  unfold gtb in Hgt.
  destruct (cash st) as [c| | |]; try discriminate; try reflexivity.
  cbn [ltb] in Hgt. cbn [sub neg add toFixed2].
  apply leb_Fin. apply round2_nonneg. qbool. lra.
Qed.

Lemma handleWithdraw_never_overdraws_witness :
  let st := mkLedger (Fin 2500) [mkHolding "TCS" (Fin 3) (Fin 450) None None] [] in
  (Fin 0 <=? cash (snd (handleWithdraw (Fin 2500) st st)))%js = true /\
  holdings (snd (handleWithdraw (Fin 2500) st st)) = holdings st.
Proof.
  intro st.
  destruct (@handleWithdraw_never_overdraws (Fin 2500) st
              (snd (handleWithdraw (Fin 2500) st st)) eq_refl eq_refl)
    as [H1 [H2 _]].
  split; [exact H1 | exact H2].
Defined.






(** ** Ledger: cash, order log and holdings *)

(** X8: a buy made with nothing pending never overdraws: with a finite live
    price and a finite cash balance that is not negative, the cash after the
    buy, filled or refused, is not negative. *)
Theorem buy_keeps_cash_nonnegative :
  forall (stocks : list Stock) (clk : Clock) (st : Ledger) (symbol : string)
         (quantity : number) (slPrice targetPrice : option number),
    (forall live : Stock,
        findStock stocks symbol = Some live ->
        isFinite (stock_price live) = true) ->
    isFinite (cash st) = true ->
    (Fin 0 <=? cash st)%js = true ->
    (Fin 0 <=? cash (snd (buy stocks clk st symbol quantity slPrice targetPrice)))%js
    = true.
Proof.
  intros stocks clk st symbol quantity slPrice targetPrice Hprice Hfin H0.
  unfold buy, buyStock.
  destruct (findStock stocks symbol) as [live|] eqn:Hlive; [|exact H0].
  specialize (Hprice live eq_refl).
  rewrite quantity_guard.
  destruct (positiveFinite quantity) eqn:Hq; cbn [negb]; [|exact H0].
  cbv zeta.
  destruct (_ >? cash st)%js eqn:Hgt; [exact H0|].
  cbn [snd setHoldings setCash pushOrder cash].
  destruct (positiveFinite_inv _ Hq) as [q [-> _]].
  destruct (stock_price live) as [p| | |]; try discriminate Hprice.
  destruct (calculateCharges_total_finite BUY q p) as [T HT].
  rewrite HT in *. unfold gtb in Hgt.
  destruct (cash st) as [c| | |]; try discriminate Hfin.
  cbn [mul add ltb] in Hgt. cbn [mul add sub neg toFixed2].
  apply leb_Fin. apply round2_nonneg. qbool. lra.
Qed.

Lemma buy_keeps_cash_nonnegative_witness :
  let clk := mkClock 1700000000000 "10:15:00" in
  let stocks := [mkStock "TCS" (Fin 500)] in
  let st := mkLedger (Fin 5002.13) [] [] in
  fst (buy stocks clk st "TCS" (Fin 10) None None) = Filled BUY /\
  (Fin 0 <=? cash (snd (buy stocks clk st "TCS" (Fin 10) None None)))%js = true /\
  (Fin 0 <=? cash (snd (buy stocks clk st "TCS" (Fin 11) None None)))%js = true.
Proof.
  intros clk stocks st.
  assert (Hprice : forall live : Stock,
             findStock stocks "TCS" = Some live ->
             isFinite (stock_price live) = true).
  { intros live H. vm_compute in H. injection H as <-. reflexivity. }
  split; [vm_compute; reflexivity|].
  split.
  - apply (@buy_keeps_cash_nonnegative stocks clk st "TCS" (Fin 10) None None
             Hprice eq_refl eq_refl).
  - apply (@buy_keeps_cash_nonnegative stocks clk st "TCS" (Fin 11) None None
             Hprice eq_refl eq_refl).
Defined.

Lemma firstn_60_bounded (A : Type) (l : list A) :
  (List.length (firstn 60 l) <= 60)%nat.
Proof.
  rewrite length_firstn. lia.
Qed.

Lemma buyStock_orders (stocks : list Stock) (clk : Clock) (snap st : Ledger)
    (symbol : string) (quantity : number) (slPrice targetPrice : option number) :
  let r := buyStock stocks clk snap st symbol quantity slPrice targetPrice in
  orders (snd r) = orders st \/
  exists o, orders (snd r) = firstn 60 (o :: orders st)
            /\ fst r = Filled BUY /\ o_side o = BUY /\ o_symbol o = symbol
            /\ o_qty o = quantity.
Proof.
  unfold buyStock.
  destruct (findStock stocks symbol) as [live|]; [|left; reflexivity].
  destruct (negb (isFinite quantity) || (quantity <=? Fin 0)%js);
    [left; reflexivity|].
  cbv zeta. destruct (_ >? cash snap)%js; [left; reflexivity|].
  right. eexists. repeat split.
Qed.

Lemma sellStock_orders (stocks : list Stock) (clk : Clock) (snap st : Ledger)
    (symbol : string) (quantity : number) :
  let r := sellStock stocks clk snap st symbol quantity in
  orders (snd r) = orders st \/
  exists o, orders (snd r) = firstn 60 (o :: orders st)
            /\ fst r = Filled SELL /\ o_side o = SELL /\ o_symbol o = symbol
            /\ o_qty o = quantity.
Proof.
  unfold sellStock.
  destruct (findStock stocks symbol) as [live|]; [|left; reflexivity].
  destruct (negb (isFinite quantity) || (quantity <=? Fin 0)%js);
    [left; reflexivity|].
  destruct (findHolding (holdings snap) symbol) as [existing|];
    [|left; reflexivity].
  destruct (quantity >? h_qty existing)%js; [left; reflexivity|].
  right. eexists. repeat split.
Qed.

Lemma sellStock_orders_bounded (stocks : list Stock) (clk : Clock)
    (snap st : Ledger) (symbol : string) (quantity : number) :
  (List.length (orders st) <= 60)%nat ->
  (List.length (orders (snd (sellStock stocks clk snap st symbol quantity))) <= 60)%nat.
Proof.
  intro H.
  destruct (sellStock_orders stocks clk snap st symbol quantity) as [E|[o [E _]]];
    rewrite E; [exact H | apply firstn_60_bounded].
Qed.

Lemma autoExitHolding_orders_bounded (stocks : list Stock) (clk : Clock)
    (snap st : Ledger) (h : Holding) :
  (List.length (orders st) <= 60)%nat ->
  (List.length (orders (autoExitHolding stocks clk snap st h)) <= 60)%nat.
Proof.
  intro H. unfold autoExitHolding.
  destruct (findStock stocks (h_symbol h)) as [live|]; [|exact H].
  cbv zeta.
  destruct (targetHit h (stock_price live)), (stopLossHit h (stock_price live));
    repeat apply sellStock_orders_bounded; exact H.
Qed.

Lemma autoExit_fold_orders_bounded (stocks : list Stock) (clk : Clock)
    (snap : Ledger) (hs : list Holding) (st : Ledger) :
  (List.length (orders st) <= 60)%nat ->
  (List.length (orders (fold_left (autoExitHolding stocks clk snap) hs st)) <= 60)%nat.
Proof.
  revert st. induction hs as [|h hs IH]; intros st H; cbn [fold_left].
  - exact H.
  - apply IH. apply autoExitHolding_orders_bounded. exact H.
Qed.

(** X9: the order log never holds more than 60 orders: a log within the cap
    stays within it through any buy, any sell and any run of the auto-exit
    monitor.  A filled buy or sell puts its order, with its side, symbol and
    quantity, at the head of the log. *)
Theorem order_log_capped :
  forall (stocks : list Stock) (clk : Clock) (snap st : Ledger) (symbol : string)
         (quantity : number) (slPrice targetPrice : option number),
    (List.length (orders st) <= 60)%nat ->
    let b := buyStock stocks clk snap st symbol quantity slPrice targetPrice in
    let s := sellStock stocks clk snap st symbol quantity in
    (List.length (orders (snd b)) <= 60)%nat /\
    (List.length (orders (snd s)) <= 60)%nat /\
    (List.length (orders (autoExit stocks clk st)) <= 60)%nat /\
    (fst b = Filled BUY ->
     exists o rest, orders (snd b) = o :: rest /\ o_side o = BUY
                    /\ o_symbol o = symbol /\ o_qty o = quantity) /\
    (fst s = Filled SELL ->
     exists o rest, orders (snd s) = o :: rest /\ o_side o = SELL
                    /\ o_symbol o = symbol /\ o_qty o = quantity).
Proof.
  intros stocks clk snap st symbol quantity slPrice targetPrice H b s.
  split; [|split; [|split; [|split]]].
  - destruct (buyStock_orders stocks clk snap st symbol quantity slPrice targetPrice)
      as [E|[o [E _]]]; subst b; rewrite E; [exact H | apply firstn_60_bounded].
  - apply sellStock_orders_bounded. exact H.
  - unfold autoExit. destruct (List.length (holdings st) =? 0)%nat; [exact H|].
    apply autoExit_fold_orders_bounded. exact H.
  - intro Hf.
    assert (Hb : buyStock stocks clk snap st symbol quantity slPrice targetPrice
                 = (Filled BUY, snd b)).
    { rewrite <- Hf. apply surjective_pairing. }
    apply buyStock_filled in Hb.
    destruct Hb as [live [_ [_ [_ [_ [_ Ho]]]]]].
    rewrite Ho. cbn [firstn]. eexists. eexists. repeat split.
  - intro Hf.
    assert (Hs : sellStock stocks clk snap st symbol quantity
                 = (Filled SELL, snd s)).
    { rewrite <- Hf. apply surjective_pairing. }
    apply sellStock_filled in Hs.
    destruct Hs as [live [existing [_ [_ [_ [_ [_ [_ Ho]]]]]]]].
    rewrite Ho. cbn [firstn]. eexists. eexists. repeat split.
Qed.

Lemma order_log_capped_witness :
  let clk := mkClock 1700000000000 "10:15:00" in
  let stocks := [mkStock "TCS" (Fin 500)] in
  let old := mkOrder "ORD-1" "09:15:00" "INFY" BUY (Fin 1) (Fin 1500) "FILLED" (Fin 0.64) in
  let st := mkLedger (Fin 100000) [] (repeat old 60) in
  (List.length (orders st) <= 60)%nat /\
  List.length (orders (snd (buyStock stocks clk st st "TCS" (Fin 10) None None)))
  = 60%nat /\
  exists o rest,
    orders (snd (buyStock stocks clk st st "TCS" (Fin 10) None None)) = o :: rest
    /\ o_side o = BUY /\ o_symbol o = "TCS"%string /\ o_qty o = Fin 10.
Proof.
  intros clk stocks old st.
  assert (H : (List.length (orders st) <= 60)%nat) by (vm_compute; lia).
  destruct (@order_log_capped stocks clk st st "TCS" (Fin 10) None None H)
    as [_ [_ [_ [Hhead _]]]].
  split; [exact H|]. split; [vm_compute; reflexivity|].
  apply Hhead. vm_compute. reflexivity.
Defined.

(** Lookups in the lists the holdings updaters build. *)
Lemma findHolding_filter_out (symbol : string) (hs : list Holding) :
  findHolding (filter (fun x => negb (String.eqb (h_symbol x) symbol)) hs) symbol
  = None.
Proof.
  unfold findHolding. induction hs as [|h hs IH]; cbn [filter find].
  - reflexivity.
  - destruct (String.eqb (h_symbol h) symbol) eqn:E; cbn [negb find].
    + exact IH.
    + rewrite E. exact IH.
Qed.

Lemma findHolding_filter_other (symbol other : string) (hs : list Holding) :
  other <> symbol ->
  findHolding (filter (fun x => negb (String.eqb (h_symbol x) symbol)) hs) other
  = findHolding hs other.
Proof.
  intro Hne. unfold findHolding. induction hs as [|h hs IH]; cbn [filter find].
  - reflexivity.
  - destruct (String.eqb (h_symbol h) symbol) eqn:E; cbn [negb find].
    + apply String.eqb_eq in E.
      destruct (String.eqb (h_symbol h) other) eqn:E'.
      * apply String.eqb_eq in E'. congruence.
      * exact IH.
    + destruct (String.eqb (h_symbol h) other); [reflexivity | exact IH].
Qed.

Lemma findHolding_map_other (symbol other : string) (f : Holding -> Holding)
    (hs : list Holding) :
  other <> symbol ->
  (forall h, h_symbol (f h) = h_symbol h) ->
  findHolding (map (fun h => if String.eqb (h_symbol h) symbol then f h else h) hs)
    other
  = findHolding hs other.
Proof.
  intros Hne Hf. unfold findHolding. induction hs as [|h hs IH]; cbn [map find].
  - reflexivity.
  - destruct (String.eqb (h_symbol h) symbol) eqn:E.
    + rewrite Hf. apply String.eqb_eq in E.
      destruct (String.eqb (h_symbol h) other) eqn:E'.
      * apply String.eqb_eq in E'. congruence.
      * exact IH.
    + destruct (String.eqb (h_symbol h) other); [reflexivity | exact IH].
Qed.

Lemma findHolding_app_other (symbol other : string) (hs : list Holding)
    (new : Holding) :
  other <> symbol -> h_symbol new = symbol ->
  findHolding (hs ++ [new]) other = findHolding hs other.
Proof.
  intros Hne Hnew. unfold findHolding. induction hs as [|h hs IH]; cbn [app find].
  - rewrite Hnew. destruct (String.eqb symbol other) eqn:E; [|reflexivity].
    apply String.eqb_eq in E. congruence.
  - destruct (String.eqb (h_symbol h) other); [reflexivity | exact IH].
Qed.

Lemma buyUpsert_other (symbol other : string) (quantity price : number)
    (slPrice targetPrice : option number) (hs : list Holding) :
  other <> symbol ->
  findHolding (buyUpsert symbol quantity price slPrice targetPrice hs) other
  = findHolding hs other.
Proof.
  intro Hne. unfold buyUpsert.
  destruct (findHolding hs symbol) as [existing|].
  - apply (@findHolding_map_other symbol other
             (fun h => mkHolding (h_symbol h) (h_qty existing + quantity)%js
                         (toFixed2
                            ((h_qty existing * h_avgBuy existing + quantity * price)
                             / (h_qty existing + quantity))%js)
                         (nullish (h_sl existing) (parseLevel slPrice))
                         (nullish (h_target existing) (parseLevel targetPrice)))
             hs Hne).
    intro h. reflexivity.
  - apply findHolding_app_other with (symbol := symbol); [exact Hne | reflexivity].
Qed.

Lemma sellReduce_other (symbol other : string) (quantity : number)
    (hs : list Holding) :
  other <> symbol ->
  findHolding (sellReduce symbol quantity hs) other = findHolding hs other.
Proof.
  intro Hne. unfold sellReduce.
  destruct (findHolding hs symbol) as [h|]; [|reflexivity].
  destruct (_ <=? Fin 0)%js.
  - apply findHolding_filter_other. exact Hne.
  - apply (@findHolding_map_other symbol other
             (fun x => mkHolding (h_symbol x) (h_qty h - quantity)%js (h_avgBuy x)
                         (h_sl x) (h_target x))
             hs Hne).
    intro x. reflexivity.
Qed.

Lemma buyStock_holdings (stocks : list Stock) (clk : Clock) (snap st : Ledger)
    (symbol : string) (quantity : number) (slPrice targetPrice : option number) :
  let st' := snd (buyStock stocks clk snap st symbol quantity slPrice targetPrice) in
  holdings st' = holdings st \/
  exists price, holdings st'
                = buyUpsert symbol quantity price slPrice targetPrice (holdings st).
Proof.
  unfold buyStock.
  destruct (findStock stocks symbol) as [live|]; [|left; reflexivity].
  destruct (negb (isFinite quantity) || (quantity <=? Fin 0)%js);
    [left; reflexivity|].
  cbv zeta. destruct (_ >? cash snap)%js; [left; reflexivity|].
  right. eexists. reflexivity.
Qed.

Lemma sellStock_holdings (stocks : list Stock) (clk : Clock) (snap st : Ledger)
    (symbol : string) (quantity : number) :
  let st' := snd (sellStock stocks clk snap st symbol quantity) in
  holdings st' = holdings st \/
  holdings st' = sellReduce symbol quantity (holdings st).
Proof.
  unfold sellStock.
  destruct (findStock stocks symbol) as [live|]; [|left; reflexivity].
  destruct (negb (isFinite quantity) || (quantity <=? Fin 0)%js);
    [left; reflexivity|].
  destruct (findHolding (holdings snap) symbol) as [existing|];
    [|left; reflexivity].
  destruct (quantity >? h_qty existing)%js; [left; reflexivity|].
  right. reflexivity.
Qed.

(** X10: a buy or a sell of one symbol, whatever its outcome, leaves the
    holding of every other symbol exactly as it was. *)
Theorem trade_leaves_other_holdings :
  forall (stocks : list Stock) (clk : Clock) (snap st : Ledger)
         (symbol other : string) (quantity : number)
         (slPrice targetPrice : option number),
    other <> symbol ->
    findHolding
      (holdings (snd (buyStock stocks clk snap st symbol quantity slPrice targetPrice)))
      other = findHolding (holdings st) other /\
    findHolding (holdings (snd (sellStock stocks clk snap st symbol quantity))) other
    = findHolding (holdings st) other.
Proof.
  intros stocks clk snap st symbol other quantity slPrice targetPrice Hne.
  split.
  - destruct (buyStock_holdings stocks clk snap st symbol quantity slPrice targetPrice)
      as [E|[price E]]; rewrite E; [reflexivity|].
    apply buyUpsert_other. exact Hne.
  - destruct (sellStock_holdings stocks clk snap st symbol quantity) as [E|E];
      rewrite E; [reflexivity|].
    apply sellReduce_other. exact Hne.
Qed.

Lemma trade_leaves_other_holdings_witness :
  let clk := mkClock 1700000000000 "10:15:00" in
  let stocks := [mkStock "TCS" (Fin 500); mkStock "INFY" (Fin 1500)] in
  let infy := mkHolding "INFY" (Fin 3) (Fin 1450) (Some (Fin 1400)) None in
  let st := mkLedger (Fin 100000) [mkHolding "TCS" (Fin 5) (Fin 480) None None; infy] [] in
  findHolding (holdings (snd (buyStock stocks clk st st "TCS" (Fin 10) None None)))
    "INFY" = Some infy /\
  findHolding (holdings (snd (sellStock stocks clk st st "TCS" (Fin 5)))) "INFY"
  = Some infy.
Proof.
  intros clk stocks infy st.
  assert (Hne : "INFY"%string <> "TCS"%string) by discriminate.
  destruct (@trade_leaves_other_holdings stocks clk st st "TCS" "INFY" (Fin 10)
              None None Hne) as [Hb _].
  destruct (@trade_leaves_other_holdings stocks clk st st "TCS" "INFY" (Fin 5)
              None None Hne) as [_ Hs].
  split; [rewrite Hb | rewrite Hs]; reflexivity.
Defined.

(** X11: a filled sell of exactly the quantity held (a finite one) removes
    the holding of the symbol from the holdings. *)
Theorem sell_all_removes_holding :
  forall (stocks : list Stock) (clk : Clock) (st st' : Ledger) (symbol : string)
         (h : Holding),
    findHolding (holdings st) symbol = Some h ->
    sell stocks clk st symbol (h_qty h) = (Filled SELL, st') ->
    findHolding (holdings st') symbol = None /\
    holdings st'
    = filter (fun x => negb (String.eqb (h_symbol x) symbol)) (holdings st).
Proof.
  intros stocks clk st st' symbol h Hheld Hsell.
  apply sellStock_filled in Hsell.
  destruct Hsell as [live [existing [_ [Hq [_ [_ [_ [Hhold _]]]]]]]].
  rewrite Hhold. unfold sellReduce. rewrite Hheld.
  destruct (positiveFinite_inv _ Hq) as [q [Eq _]]. rewrite Eq.
  assert (E : (Fin q - Fin q <=? Fin 0)%js = true).
  { cbn [sub neg add]. apply leb_Fin. lra. }
  rewrite E. split; [apply findHolding_filter_out | reflexivity].
Qed.

Lemma sell_all_removes_holding_witness :
  let clk := mkClock 1700000000000 "10:15:00" in
  let stocks := [mkStock "TCS" (Fin 500); mkStock "INFY" (Fin 1500)] in
  let infy := mkHolding "INFY" (Fin 3) (Fin 1450) (Some (Fin 1400)) None in
  let tcs := mkHolding "TCS" (Fin 5) (Fin 480) None None in
  let st := mkLedger (Fin 100000) [tcs; infy] [] in
  findHolding (holdings (snd (sell stocks clk st "TCS" (Fin 5)))) "TCS" = None /\
  holdings (snd (sell stocks clk st "TCS" (Fin 5))) = [infy].
Proof.
  intros clk stocks infy tcs st.
  assert (H : sell stocks clk st "TCS" (h_qty tcs)
              = (Filled SELL, snd (sell stocks clk st "TCS" (Fin 5))))
    by (vm_compute; reflexivity).
  destruct (@sell_all_removes_holding stocks clk st _ "TCS" tcs eq_refl H)
    as [H1 H2].
  split; [exact H1|]. rewrite H2. reflexivity.
Defined.

(** X12: a filled sell of less than the quantity held keeps the holding with
    the quantity reduced by what was sold and with its average price,
    stop-loss and target unchanged. *)
Theorem sell_part_keeps_average :
  forall (stocks : list Stock) (clk : Clock) (st st' : Ledger) (symbol : string)
         (quantity : number) (h : Holding),
    findHolding (holdings st) symbol = Some h ->
    (quantity <? h_qty h)%js = true ->
    sell stocks clk st symbol quantity = (Filled SELL, st') ->
    findHolding (holdings st') symbol
    = Some (mkHolding (h_symbol h) (h_qty h - quantity)%js (h_avgBuy h)
              (h_sl h) (h_target h)).
Proof.
  intros stocks clk st st' symbol quantity h Hheld Hlt Hsell.
  apply sellStock_filled in Hsell.
  destruct Hsell as [live [existing [_ [Hq [_ [_ [_ [Hhold _]]]]]]]].
  rewrite Hhold. unfold sellReduce. rewrite Hheld.
  destruct (positiveFinite_inv _ Hq) as [q [Eq _]]. rewrite Eq in *.
  assert (E : (h_qty h - Fin q <=? Fin 0)%js = false).
  { destruct (h_qty h) as [a| | |]; try discriminate Hlt; try reflexivity.
    apply ltb_Fin in Hlt. cbn [sub neg add leb]. apply Qle_bool_false. lra. }
  rewrite E.
  rewrite (@find_map_same_key symbol
             (fun x => if String.eqb (h_symbol x) symbol
                       then mkHolding (h_symbol x) (h_qty h - Fin q)%js (h_avgBuy x)
                              (h_sl x) (h_target x)
                       else x)).
  - rewrite Hheld. cbn [option_map].
    rewrite (findHolding_symbol _ _ Hheld), String.eqb_refl. reflexivity.
  - intro x. destruct (String.eqb (h_symbol x) symbol); reflexivity.
Qed.

Lemma sell_part_keeps_average_witness :
  let clk := mkClock 1700000000000 "10:15:00" in
  let stocks := [mkStock "TCS" (Fin 500)] in
  let tcs := mkHolding "TCS" (Fin 5) (Fin 480.25) (Some (Fin 450)) (Some (Fin 550)) in
  let st := mkLedger (Fin 100000) [tcs] [] in
  findHolding (holdings (snd (sell stocks clk st "TCS" (Fin 2)))) "TCS"
  = Some (mkHolding "TCS" (Fin 5 - Fin 2)%js (Fin 480.25) (Some (Fin 450))
            (Some (Fin 550))).
Proof.
  intros clk stocks tcs st.
  assert (H : sell stocks clk st "TCS" (Fin 2)
              = (Filled SELL, snd (sell stocks clk st "TCS" (Fin 2))))
    by (vm_compute; reflexivity).
  exact (@sell_part_keeps_average stocks clk st _ "TCS" (Fin 2) tcs eq_refl eq_refl H).
Defined.

(** X13: a filled buy into an existing holding keeps a stop-loss and a target
    that are already set, whatever levels the buy gives; a level that is not
    set takes the level given with the buy when that is a finite number, and
    stays unset otherwise. *)
Theorem buy_levels_first_write_wins :
  forall (stocks : list Stock) (clk : Clock) (snap st st' : Ledger)
         (symbol : string) (quantity : number)
         (slPrice targetPrice : option number) (existing : Holding),
    findHolding (holdings st) symbol = Some existing ->
    buyStock stocks clk snap st symbol quantity slPrice targetPrice
    = (Filled BUY, st') ->
    exists h' : Holding,
      findHolding (holdings st') symbol = Some h' /\
      h_sl h' = match h_sl existing with
                | Some s => Some s
                | None => parseLevel slPrice
                end /\
      h_target h' = match h_target existing with
                    | Some t => Some t
                    | None => parseLevel targetPrice
                    end.
Proof.
  intros stocks clk snap st st' symbol quantity slPrice targetPrice existing
    Hex Hbuy.
  apply buyStock_filled in Hbuy.
  destruct Hbuy as [live [_ [_ [_ [_ [Hhold _]]]]]].
  rewrite Hhold. unfold buyUpsert. rewrite Hex.
  rewrite find_map_same_key.
  - rewrite Hex. cbn [option_map].
    rewrite (findHolding_symbol _ _ Hex), String.eqb_refl.
    eexists. split; [reflexivity|]. cbn [h_sl h_target]. unfold nullish.
    destruct (h_sl existing), (h_target existing); split; reflexivity.
  - intro h. destruct (String.eqb (h_symbol h) symbol); reflexivity.
Qed.

Lemma buy_levels_first_write_wins_witness :
  let clk := mkClock 1700000000000 "10:15:00" in
  let stocks := [mkStock "TCS" (Fin 500)] in
  let tcs := mkHolding "TCS" (Fin 5) (Fin 480) (Some (Fin 450)) None in
  let st := mkLedger (Fin 100000) [tcs] [] in
  exists h' : Holding,
    findHolding
      (holdings (snd (buyStock stocks clk st st "TCS" (Fin 2)
                        (Some (Fin 470)) (Some (Fin 560))))) "TCS"
    = Some h' /\
    h_sl h' = Some (Fin 450) /\ h_target h' = Some (Fin 560).
Proof.
  intros clk stocks tcs st.
  assert (H : buyStock stocks clk st st "TCS" (Fin 2) (Some (Fin 470)) (Some (Fin 560))
              = (Filled BUY,
                 snd (buyStock stocks clk st st "TCS" (Fin 2) (Some (Fin 470))
                        (Some (Fin 560)))))
    by (vm_compute; reflexivity).
  destruct (@buy_levels_first_write_wins stocks clk st st _ "TCS" (Fin 2)
              (Some (Fin 470)) (Some (Fin 560)) tcs eq_refl H)
    as [h' [Hf [Hsl Htg]]].
  exists h'. split; [exact Hf|]. split; [exact Hsl | exact Htg].
Defined.

Lemma findHolding_none_not_in (hs : list Holding) (symbol : string) :
  findHolding hs symbol = None -> ~ In symbol (map h_symbol hs).
Proof.
  intros Hnone Hin. apply in_map_iff in Hin. destruct Hin as [h [Hs Hh]].
  pose proof (find_none _ _ Hnone h Hh) as E. cbn beta in E.
  rewrite Hs, String.eqb_refl in E. discriminate E.
Qed.

Lemma NoDup_symbols_filter (p : Holding -> bool) (hs : list Holding) :
  NoDup (map h_symbol hs) -> NoDup (map h_symbol (filter p hs)).
Proof.
  induction hs as [|h hs IH]; cbn [map filter]; intro H.
  - constructor.
  - inversion H as [|x l Hnotin Hrest]; subst.
    destruct (p h); cbn [map].
    + constructor; [|apply IH; exact Hrest].
      intro Hin. apply Hnotin. apply in_map_iff in Hin.
      destruct Hin as [y [Hy Hy']]. apply filter_In in Hy'.
      apply in_map_iff. exists y. split; [exact Hy | apply Hy'].
    + apply IH. exact Hrest.
Qed.

Lemma buyUpsert_symbols_unique (symbol : string) (quantity price : number)
    (slPrice targetPrice : option number) (hs : list Holding) :
  NoDup (map h_symbol hs) ->
  NoDup (map h_symbol (buyUpsert symbol quantity price slPrice targetPrice hs)).
Proof.
  intro H. unfold buyUpsert.
  destruct (findHolding hs symbol) as [existing|] eqn:E.
  - rewrite map_map.
    erewrite map_ext; [exact H|].
    intro h. cbn beta. destruct (String.eqb (h_symbol h) symbol); reflexivity.
  - rewrite map_app. cbn [map h_symbol].
    rewrite <- (rev_involutive (map h_symbol hs ++ [symbol])).
    apply NoDup_rev. rewrite rev_app_distr. cbn [rev app].
    constructor.
    + rewrite <- in_rev. apply findHolding_none_not_in. exact E.
    + apply NoDup_rev. exact H.
Qed.

Lemma sellReduce_symbols_unique (symbol : string) (quantity : number)
    (hs : list Holding) :
  NoDup (map h_symbol hs) ->
  NoDup (map h_symbol (sellReduce symbol quantity hs)).
Proof.
  intro H. unfold sellReduce.
  destruct (findHolding hs symbol) as [h|]; [|exact H].
  destruct (_ <=? Fin 0)%js.
  - apply NoDup_symbols_filter. exact H.
  - rewrite map_map.
    erewrite map_ext; [exact H|].
    intro x. cbn beta. destruct (String.eqb (h_symbol x) symbol); reflexivity.
Qed.

Lemma sellStock_symbols_unique (stocks : list Stock) (clk : Clock)
    (snap st : Ledger) (symbol : string) (quantity : number) :
  NoDup (map h_symbol (holdings st)) ->
  NoDup (map h_symbol (holdings (snd (sellStock stocks clk snap st symbol quantity)))).
Proof.
  intro H.
  destruct (sellStock_holdings stocks clk snap st symbol quantity) as [E|E];
    rewrite E; [exact H | apply sellReduce_symbols_unique; exact H].
Qed.

Lemma autoExit_fold_symbols_unique (stocks : list Stock) (clk : Clock)
    (snap : Ledger) (hs : list Holding) (st : Ledger) :
  NoDup (map h_symbol (holdings st)) ->
  NoDup (map h_symbol
           (holdings (fold_left (autoExitHolding stocks clk snap) hs st))).
Proof.
  revert st. induction hs as [|h hs IH]; intros st H; cbn [fold_left].
  - exact H.
  - apply IH. unfold autoExitHolding.
    destruct (findStock stocks (h_symbol h)) as [live|]; [|exact H].
    cbv zeta.
    destruct (targetHit h (stock_price live)), (stopLossHit h (stock_price live));
      repeat apply sellStock_symbols_unique; exact H.
Qed.

(** X14: the holdings stay keyed by symbol: when no two holdings share a
    symbol, none do after any buy, any sell and any run of the auto-exit
    monitor. *)
Theorem holdings_symbols_stay_unique :
  forall (stocks : list Stock) (clk : Clock) (snap st : Ledger) (symbol : string)
         (quantity : number) (slPrice targetPrice : option number),
    NoDup (map h_symbol (holdings st)) ->
    NoDup (map h_symbol
             (holdings (snd (buyStock stocks clk snap st symbol quantity
                               slPrice targetPrice)))) /\
    NoDup (map h_symbol
             (holdings (snd (sellStock stocks clk snap st symbol quantity)))) /\
    NoDup (map h_symbol (holdings (autoExit stocks clk st))).
Proof.
  intros stocks clk snap st symbol quantity slPrice targetPrice H.
  split; [|split].
  - destruct (buyStock_holdings stocks clk snap st symbol quantity slPrice targetPrice)
      as [E|[price E]]; rewrite E;
      [exact H | apply buyUpsert_symbols_unique; exact H].
  - apply sellStock_symbols_unique. exact H.
  - unfold autoExit. destruct (List.length (holdings st) =? 0)%nat; [exact H|].
    apply autoExit_fold_symbols_unique. exact H.
Qed.

Lemma holdings_symbols_stay_unique_witness :
  let clk := mkClock 1700000000000 "10:15:00" in
  let stocks := [mkStock "TCS" (Fin 500); mkStock "INFY" (Fin 1500)] in
  let st := mkLedger (Fin 100000)
              [mkHolding "TCS" (Fin 5) (Fin 480) None None;
               mkHolding "INFY" (Fin 3) (Fin 1450) (Some (Fin 1500)) None] [] in
  NoDup (map h_symbol (holdings st)) /\
  NoDup (map h_symbol
           (holdings (snd (buyStock stocks clk st st "TCS" (Fin 2) None None)))) /\
  NoDup (map h_symbol (holdings (autoExit stocks clk st))).
Proof.
  intros clk stocks st.
  assert (H : NoDup (map h_symbol (holdings st))).
  { cbn. constructor.
    - intros [E|[]]. discriminate E.
    - constructor; [intros [] | constructor]. }
  destruct (@holdings_symbols_stay_unique stocks clk st st "TCS" (Fin 2) None None H)
    as [Hb [_ Ha]].
  split; [exact H|]. split; [exact Hb | exact Ha].
Defined.

(** ** Auto-exit monitor: the regular paths *)

Lemma autoExitHolding_nothing_hit (stocks : list Stock) (clk : Clock)
    (snap st : Ledger) (h : Holding) :
  nothingHit stocks h -> autoExitHolding stocks clk snap st h = st.
Proof.
  intro H. unfold autoExitHolding.
  destruct (findStock stocks (h_symbol h)) as [live|] eqn:E; [|reflexivity].
  destruct (H live E) as [Ht Hs]. cbv zeta. rewrite Ht, Hs. reflexivity.
Qed.

Lemma autoExit_fold_nothing_hit (stocks : list Stock) (clk : Clock)
    (snap : Ledger) (hs : list Holding) (st : Ledger) :
  Forall (nothingHit stocks) hs ->
  fold_left (autoExitHolding stocks clk snap) hs st = st.
Proof.
  intro H. revert st. induction H as [|h hs Hh Hhs IH]; intro st; cbn [fold_left].
  - reflexivity.
  - rewrite (autoExitHolding_nothing_hit clk snap st Hh). apply IH.
Qed.

(** X15: the monitor sells nothing it should not: when no holding with a live
    quote has its target or its stop-loss hit, a run of the monitor leaves the
    ledger exactly as it was. *)
Theorem autoExit_nothing_hit_unchanged :
  forall (stocks : list Stock) (clk : Clock) (snap : Ledger),
    Forall (nothingHit stocks) (holdings snap) ->
    autoExit stocks clk snap = snap.
Proof.
  intros stocks clk snap H. unfold autoExit.
  destruct (List.length (holdings snap) =? 0)%nat; [reflexivity|].
  apply autoExit_fold_nothing_hit. exact H.
Qed.

Lemma autoExit_nothing_hit_unchanged_witness :
  let clk := mkClock 1700000000000 "10:15:00" in
  let stocks := [mkStock "TCS" (Fin 500)] in
  let snap := mkLedger (Fin 100000)
                [mkHolding "TCS" (Fin 5) (Fin 480) (Some (Fin 450)) (Some (Fin 550));
                 mkHolding "WIPRO" (Fin 2) (Fin 400) (Some (Fin 900)) (Some (Fin 1))]
                [] in
  autoExit stocks clk snap = snap.
Proof.
  intros clk stocks snap.
  apply (@autoExit_nothing_hit_unchanged stocks clk snap).
  constructor; [|constructor; [|constructor]].
  - intros live H. vm_compute in H. injection H as <-. split; reflexivity.
  - intros live H. vm_compute in H. discriminate H.
Defined.

(** X16: when exactly one of the two levels of one holding is hit in a cycle
    and no other holding hits anything, the monitor makes one full exit of
    that holding: the ledger it leaves is the one a single filled sell of the
    whole quantity leaves, with one SELL order for that quantity at the head
    of the log and the holding removed. *)
Theorem autoExit_single_hit_is_one_sell :
  forall (stocks : list Stock) (clk : Clock) (snap : Ledger)
         (before after : list Holding) (h : Holding) (live : Stock),
    holdings snap = before ++ h :: after ->
    Forall (nothingHit stocks) before ->
    Forall (nothingHit stocks) after ->
    findStock stocks (h_symbol h) = Some live ->
    findHolding (holdings snap) (h_symbol h) = Some h ->
    isFinite (h_qty h) = true ->
    xorb (targetHit h (stock_price live)) (stopLossHit h (stock_price live)) = true ->
    sell stocks clk snap (h_symbol h) (h_qty h)
    = (Filled SELL, autoExit stocks clk snap) /\
    holdings (autoExit stocks clk snap)
    = filter (fun x => negb (String.eqb (h_symbol x) (h_symbol h))) (holdings snap) /\
    exists o : Order,
      orders (autoExit stocks clk snap) = firstn 60 (o :: orders snap) /\
      o_side o = SELL /\ o_symbol o = h_symbol h /\ o_qty o = h_qty h.
Proof.
  intros stocks clk snap before after h live Hsplit Hbefore Hafter Hlive Hheld
    Hfin Hxor.
  assert (Hq : positiveFinite (h_qty h) = true).
  { unfold positiveFinite. rewrite Hfin. cbn [andb].
    unfold targetHit, stopLossHit in Hxor.
    destruct (h_target h), (h_sl h); cbn [xorb] in Hxor;
      try discriminate Hxor;
      destruct (h_qty h >? Fin 0)%js; try reflexivity;
      rewrite ?andb_false_r in Hxor; discriminate Hxor. }
  assert (Hone : autoExitHolding stocks clk snap snap h
                 = snd (sellStock stocks clk snap snap (h_symbol h) (h_qty h))).
  { unfold autoExitHolding. rewrite Hlive. cbv zeta.
    destruct (targetHit h (stock_price live)), (stopLossHit h (stock_price live));
      try discriminate Hxor; reflexivity. }
  assert (Hrun : autoExit stocks clk snap
                 = snd (sellStock stocks clk snap snap (h_symbol h) (h_qty h))).
  { unfold autoExit. rewrite Hsplit at 1.
    rewrite length_app. cbn [List.length].
    replace (List.length before + S (List.length after) =? 0)%nat with false
      by (symmetry; apply Nat.eqb_neq; lia).
    rewrite Hsplit at 1.
    rewrite fold_left_app. cbn [fold_left].
    rewrite (autoExit_fold_nothing_hit clk snap snap Hbefore), Hone.
    apply (autoExit_fold_nothing_hit clk snap _ Hafter). }
  rewrite Hrun. unfold sell.
  rewrite (@sellStock_full_exit stocks clk snap snap h live Hlive Hheld Hq).
  cbn [snd holdings orders].
  split; [reflexivity|]. split.
  - unfold sellReduce. rewrite Hheld.
    destruct (h_qty h) as [q| | |]; try discriminate Hfin.
    assert (E : (Fin q - Fin q <=? Fin 0)%js = true).
    { cbn [sub neg add]. apply leb_Fin. lra. }
    rewrite E. reflexivity.
  - eexists. split; [reflexivity|]. repeat split.
Qed.

Lemma autoExit_single_hit_is_one_sell_witness :
  let clk := mkClock 1700000000000 "10:15:00" in
  let stocks := [mkStock "TCS" (Fin 555); mkStock "INFY" (Fin 1500)] in
  let tcs := mkHolding "TCS" (Fin 5) (Fin 480) (Some (Fin 450)) (Some (Fin 550)) in
  let infy := mkHolding "INFY" (Fin 3) (Fin 1450) (Some (Fin 1400)) None in
  let snap := mkLedger (Fin 100000) [infy; tcs] [] in
  sell stocks clk snap "TCS" (Fin 5) = (Filled SELL, autoExit stocks clk snap) /\
  holdings (autoExit stocks clk snap) = [infy] /\
  List.length (orders (autoExit stocks clk snap)) = 1%nat.
Proof.
  intros clk stocks tcs infy snap.
  assert (Hinfy : nothingHit stocks infy).
  { intros live H. vm_compute in H. injection H as <-. split; reflexivity. }
  destruct (@autoExit_single_hit_is_one_sell stocks clk snap [infy] [] tcs
              (mkStock "TCS" (Fin 555)) eq_refl
              (Forall_cons _ Hinfy (Forall_nil _)) (Forall_nil _)
              eq_refl eq_refl eq_refl eq_refl)
    as [Hsell [Hhold [o [Horders _]]]].
  split; [exact Hsell|].
  split.
  - rewrite Hhold. reflexivity.
  - rewrite Horders. reflexivity.
Defined.

(** ** Candle history *)

Lemma succ_div_mod_6 (n : nat) :
  (n mod 6 = 5 -> S n / 6 = S (n / 6) /\ S n mod 6 = 0)%nat /\
  (n mod 6 <> 5 -> S n / 6 = n / 6 /\ S n mod 6 = S (n mod 6))%nat.
Proof.
  pose proof (Nat.div_mod_eq n 6) as Hn.
  pose proof (Nat.mod_upper_bound n 6 ltac:(discriminate)) as Hr.
  split; intro H.
  - split.
    + symmetry. apply (Nat.div_unique (S n) 6 (S (n / 6)) 0); lia.
    + symmetry. apply (Nat.mod_unique (S n) 6 (S (n / 6)) 0); lia.
  - split.
    + symmetry. apply (Nat.div_unique (S n) 6 (n / 6) (S (n mod 6))); lia.
    + symmetry. apply (Nat.mod_unique (S n) 6 (n / 6) (S (n mod 6))); lia.
Qed.

Lemma ingestAll_snoc (ticks : list (Clock * number)) (t : Clock * number)
    (st : Aggregator) :
  ingestAll (ticks ++ [t]) st = ingest (fst t) (snd t) (ingestAll ticks st).
Proof.
  unfold ingestAll. rewrite fold_left_app. reflexivity.
Qed.

(** The state after [n >= 1] ingests from the empty state. *)
Lemma ingestAll_shape (ticks : list (Clock * number)) :
  ticks <> [] ->
  let n := List.length ticks in
  let st := ingestAll ticks emptyAggregator in
  exists (closed : list Candle) (current : Candle),
    candleRef st = Some current /\
    candles st = closed ++ [current] /\
    c_ticks current = Z.of_nat (n mod 6) /\
    List.length (candles st) = Nat.min 300 (1 + n / 6).
Proof.
  induction ticks as [|t ticks IH] using rev_ind; intro Hne; [congruence|].
  cbv zeta. rewrite ingestAll_snoc, length_app. cbn [List.length].
  rewrite Nat.add_1_r.
  destruct ticks as [|t0 ticks0].
  - cbn. eexists []. eexists. repeat split.
  - destruct IH as [closed [current [Href [Hlist [Hticks Hlen]]]]];
      [discriminate|].
    set (ts := t0 :: ticks0) in *. set (n := List.length ts) in *.
    destruct (succ_div_mod_6 n) as [H5 Hn5].
    rewrite Hlist, length_app in Hlen. cbn [List.length] in Hlen.
    destruct (Nat.eq_dec (n mod 6) 5) as [E|E].
    + destruct (H5 E) as [Hd Hm].
      assert (Hge : (c_ticks current + 1 >= CANDLE_TICKS)%Z).
      { rewrite Hticks, E. unfold CANDLE_TICKS. lia. }
      rewrite (@ingest_at_threshold (fst t) (snd t) _ current closed Href Hlist Hge).
      cbn [candleRef candles].
      eexists (_ ++ [_]). eexists. split; [reflexivity|].
      split; [rewrite <- app_assoc; reflexivity|].
      split; [rewrite Hm; reflexivity|].
      rewrite length_app, sliceLast_length, Hd. cbn [List.length]. lia.
    + destruct (Hn5 E) as [Hd Hm].
      pose proof (Nat.mod_upper_bound n 6 ltac:(discriminate)) as Hr.
      assert (Hlt : (c_ticks current + 1 < CANDLE_TICKS)%Z).
      { rewrite Hticks. unfold CANDLE_TICKS. lia. }
      rewrite (@ingest_below_threshold (fst t) (snd t) _ current closed Href Hlist Hlt).
      cbn [candleRef candles].
      eexists. eexists. split; [reflexivity|]. split; [reflexivity|].
      split; [cbn [c_ticks]; rewrite Hticks, Hm; lia|].
      rewrite length_app, sliceLast_length, Hd. cbn [List.length]. lia.
Qed.

(** X17: after [n >= 1] ingests from the empty state the history holds
    [1 + n / 6] candles, capped at 300, and the open candle has counted
    [n mod 6] ticks: one candle closes every sixth ingest and the history
    never exceeds 300 candles. *)
Theorem ingestAll_candle_count :
  forall ticks : list (Clock * number),
    ticks <> [] ->
    let n := List.length ticks in
    let st := ingestAll ticks emptyAggregator in
    List.length (candles st) = Nat.min 300 (1 + n / 6) /\
    option_map c_ticks (candleRef st) = Some (Z.of_nat (n mod 6)) /\
    (List.length (candles st) <= 300)%nat.
Proof.
  intros ticks Hne n st.
  destruct (ingestAll_shape Hne) as [closed [current [Href [_ [Hticks Hlen]]]]].
  fold n st in Href, Hticks, Hlen.
  split; [exact Hlen|]. split.
  - rewrite Href. cbn [option_map]. rewrite Hticks. reflexivity.
  - rewrite Hlen. lia.
Qed.

Lemma ingestAll_candle_count_witness :
  let clk := mkClock 1700000000000 "10:15:00" in
  let ticks := repeat (clk, Fin 100) 1900 in
  List.length (candles (ingestAll ticks emptyAggregator)) = 300%nat /\
  option_map c_ticks (candleRef (ingestAll ticks emptyAggregator)) = Some 4%Z.
Proof.
  intros clk ticks.
  assert (Hne : ticks <> []) by discriminate.
  destruct (ingestAll_candle_count Hne) as [Hlen [Hticks _]].
  split.
  - rewrite Hlen. subst ticks. rewrite repeat_length. reflexivity.
  - rewrite Hticks. subst ticks. rewrite repeat_length. reflexivity.
Defined.

Lemma In_sliceLast (n : nat) (l : list Candle) (c : Candle) :
  In c (sliceLast n l) -> In c l.
Proof.
  unfold sliceLast. intro H.
  rewrite <- (firstn_skipn (List.length l - n) l). apply in_or_app. right. exact H.
Qed.

(** X18: an ingest never alters a closed candle: with the open candle last in
    the history, every candle of the history after the ingest is a candle
    that was already closed before, the updated open candle, or the candle
    opened after it. *)
Theorem ingest_keeps_closed_candles :
  forall (clk : Clock) (price : number) (st : Aggregator)
         (current : Candle) (closed : list Candle),
    candleRef st = Some current ->
    candles st = closed ++ [current] ->
    let updated :=
      mkCandle (c_id current) (timeLabel clk) (c_open current)
        (max (c_high current) price) (min (c_low current) price) price
        (c_ticks current + 1) in
    let next := mkCandle (now clk + 1) (timeLabel clk) price price price price 0 in
    forall c, In c (candles (ingest clk price st)) ->
              In c closed \/ c = updated \/ c = next.
Proof.
  intros clk price st current closed Href Hlist updated next c Hin.
  destruct (Z_lt_ge_dec (c_ticks current + 1) CANDLE_TICKS) as [Hlt|Hge].
  - rewrite (@ingest_below_threshold clk price st current closed Href Hlist Hlt)
      in Hin.
    cbn [candles] in Hin. apply in_app_or in Hin. destruct Hin as [Hin|[<-|[]]].
    + left. apply (In_sliceLast _ _ _ Hin).
    + right. left. reflexivity.
  - rewrite (@ingest_at_threshold clk price st current closed Href Hlist Hge)
      in Hin.
    cbn [candles] in Hin. apply in_app_or in Hin.
    destruct Hin as [Hin|[<-|[<-|[]]]].
    + left. apply (In_sliceLast _ _ _ Hin).
    + right. left. reflexivity.
    + right. right. reflexivity.
Qed.

Lemma ingest_keeps_closed_candles_witness :
  let clk := mkClock 1700000000000 "10:15:06" in
  let old := mkCandle 1699999980000 "10:14:59" (Fin 99) (Fin 100) (Fin 98) (Fin 100) 6 in
  let current := mkCandle 1699999990000 "10:15:05" (Fin 100) (Fin 101.5)
                   (Fin 99.2) (Fin 100.4) 2 in
  let st := mkAggregator [old; current] (Some current) in
  Forall (fun c => c = old \/ c_ticks c = 3%Z) (candles (ingest clk (Fin 102) st)).
Proof.
  intros clk old current st. apply Forall_forall. intros c Hin.
  destruct (@ingest_keeps_closed_candles clk (Fin 102) st current [old]
              eq_refl eq_refl c Hin) as [[<-|[]]|[->| ->]].
  - left. reflexivity.
  - right. reflexivity.
  - exfalso. vm_compute in Hin. destruct Hin as [E|[E|[]]]; discriminate E.
Defined.

(** ** Chart window and panning *)

Lemma integral_const (z : Z) : integral (Fin (inject_Z z)) z.
Proof.
  exists (inject_Z z). split; reflexivity.
Qed.

Lemma integral_lengthOf (A : Type) (l : list A) :
  integral (lengthOf l) (Z.of_nat (List.length l)).
Proof.
  apply integral_const.
Qed.

Lemma integral_sub (x y : number) (a b : Z) :
  integral x a -> integral y b -> integral (x - y)%js (a - b).
Proof.
  intros [p [-> Hp]] [q [-> Hq]]. exists (p + - q). split; [reflexivity|].
  rewrite Hp, Hq. unfold Z.sub. rewrite inject_Z_plus, inject_Z_opp. reflexivity.
Qed.

Lemma integral_leb (x y : number) (a b : Z) :
  integral x a -> integral y b -> (x <=? y)%js = (a <=? b)%Z.
Proof.
  intros [p [-> Hp]] [q [-> Hq]]. cbn [leb].
  destruct (Z.leb_spec a b) as [H|H].
  - apply Qle_bool_iff. rewrite Hp, Hq. rewrite <- Zle_Qle. exact H.
  - apply Qle_bool_false. rewrite Hp, Hq. rewrite <- Zlt_Qlt. exact H.
Qed.

Lemma integral_max (x y : number) (a b : Z) :
  integral x a -> integral y b -> integral (max x y) (Z.max a b).
Proof.
  intros Hx Hy. pose proof (integral_leb Hx Hy) as E.
  destruct Hx as [p [-> Hp]], Hy as [q [-> Hq]].
  unfold max. rewrite E.
  destruct (Z.leb_spec a b) as [H|H].
  - rewrite Z.max_r by exact H. exists q. split; [reflexivity | exact Hq].
  - rewrite Z.max_l by lia. exists p. split; [reflexivity | exact Hp].
Qed.

Lemma integral_min (x y : number) (a b : Z) :
  integral x a -> integral y b -> integral (min x y) (Z.min a b).
Proof.
  intros Hx Hy. pose proof (integral_leb Hx Hy) as E.
  destruct Hx as [p [-> Hp]], Hy as [q [-> Hq]].
  unfold min. rewrite E.
  destruct (Z.leb_spec a b) as [H|H].
  - rewrite Z.min_l by exact H. exists p. split; [reflexivity | exact Hp].
  - rewrite Z.min_r by lia. exists q. split; [reflexivity | exact Hq].
Qed.

Lemma integral_clamp (v a b : number) (zv za zb : Z) :
  integral v zv -> integral a za -> integral b zb ->
  integral (clamp v a b) (Z.max za (Z.min zb zv)).
Proof.
  intros Hv Ha Hb. unfold clamp.
  apply integral_max; [exact Ha|]. apply integral_min; assumption.
Qed.

Lemma integral_mathRound (x : number) :
  isFinite x = true -> exists z : Z, integral (mathRound x) z.
Proof.
  destruct x as [q| | |]; try discriminate. intros _.
  eexists. apply integral_const.
Qed.

(** A non-negative integer as an argument of [slice]. *)
Lemma sliceIndex_integral (len : Z) (x : number) (z : Z) :
  integral x z -> (0 <= z)%Z -> sliceIndex len x = Z.min z len.
Proof.
  intros [q [-> Hq]] Hz. unfold sliceIndex.
  assert (E : Qle_bool 0 q = true).
  { apply Qle_bool_iff. rewrite Hq. change 0 with (inject_Z 0).
    rewrite <- Zle_Qle. exact Hz. }
  rewrite E. rewrite (Qfloor_comp q (inject_Z z) Hq), Qfloor_Z.
  destruct (Z.ltb_spec z 0); [lia | reflexivity].
Qed.

(** The window for integer arguments, in terms of list positions. *)
Lemma visibleCandles_integral (cs : list Candle) (visibleCount pan : number)
    (zv zp : Z) :
  integral visibleCount zv -> integral pan zp -> (0 <= zp)%Z ->
  let len := Z.of_nat (List.length cs) in
  let safe := Z.max 20 (Z.min 120 zv) in
  let e := Z.max 0 (len - zp) in
  let s := Z.max 0 (e - safe) in
  visibleCandles cs visibleCount pan
  = firstn (Z.to_nat (e - s)) (skipn (Z.to_nat s) cs).
Proof.
  intros Hv Hp Hzp len safe e s. unfold visibleCandles.
  assert (Hsafe : integral (clamp visibleCount (Fin 20) (Fin 120)) safe).
  { apply integral_clamp; [exact Hv | apply (integral_const 20)
                          | apply (integral_const 120)]. }
  assert (He : integral (max (Fin 0) (lengthOf cs - pan)%js) e).
  { apply integral_max; [apply (integral_const 0)|].
    apply integral_sub; [apply integral_lengthOf | exact Hp]. }
  assert (Hs : integral
                 (max (Fin 0)
                    (max (Fin 0) (lengthOf cs - pan) -
                     clamp visibleCount (Fin 20) (Fin 120))%js) s).
  { apply integral_max; [apply (integral_const 0)|].
    apply integral_sub; assumption. }
  cbv zeta. unfold jsSlice. fold len.
  rewrite (sliceIndex_integral len Hs) by lia.
  rewrite (sliceIndex_integral len He) by lia.
  f_equal; [f_equal; lia | f_equal; f_equal; lia].
Qed.

(** X19: for an integer [visibleCount] and an integer [panOffset >= 0] the
    chart draws a contiguous run of the history: the candles before it, the
    run and the [min(panOffset, length)] newest candles after it make up the
    history, and the run holds [min(clamp(visibleCount, 20, 120), length -
    min(panOffset, length))] candles, so never more than 120. *)
Theorem visibleCandles_window :
  forall (cs : list Candle) (visibleCount pan : number) (zv zp : Z),
    integral visibleCount zv -> integral pan zp -> (0 <= zp)%Z ->
    let len := List.length cs in
    let hidden := Nat.min (Z.to_nat zp) len in
    let safe := Z.to_nat (Z.max 20 (Z.min 120 zv)) in
    exists older newer : list Candle,
      cs = older ++ visibleCandles cs visibleCount pan ++ newer /\
      List.length newer = hidden /\
      List.length (visibleCandles cs visibleCount pan) = Nat.min safe (len - hidden) /\
      (List.length (visibleCandles cs visibleCount pan) <= 120)%nat.
Proof.
  intros cs visibleCount pan zv zp Hv Hp Hzp len hidden safe.
  rewrite (visibleCandles_integral cs Hv Hp Hzp).
  set (e := Z.max 0 (Z.of_nat (List.length cs) - zp)).
  set (s := Z.max 0 (e - Z.max 20 (Z.min 120 zv))).
  exists (firstn (Z.to_nat s) cs).
  exists (skipn (Z.to_nat (e - s)) (skipn (Z.to_nat s) cs)).
  assert (Hlen : List.length
                   (firstn (Z.to_nat (e - s)) (skipn (Z.to_nat s) cs))
                 = Nat.min safe (len - hidden)).
  { rewrite length_firstn, length_skipn. subst safe hidden len e s. lia. }
  split; [|split; [|split]].
  - rewrite (firstn_skipn (Z.to_nat (e - s))), (firstn_skipn (Z.to_nat s)).
    reflexivity.
  - rewrite !length_skipn. subst hidden len e s. lia.
  - exact Hlen.
  - rewrite Hlen. subst safe. lia.
Qed.

Lemma visibleCandles_window_witness :
  let c := mkCandle 1 "10:00:00" (Fin 100) (Fin 101) (Fin 99) (Fin 100) 6 in
  let cs := repeat c 200 in
  exists older newer : list Candle,
    cs = older ++ visibleCandles cs (Fin 60) (Fin 30) ++ newer /\
    List.length newer = 30%nat /\
    List.length (visibleCandles cs (Fin 60) (Fin 30)) = 60%nat.
Proof.
  intros c cs.
  destruct (@visibleCandles_window cs (Fin 60) (Fin 30) 60 30
              (integral_const 60) (integral_const 30) ltac:(discriminate))
    as [older [newer [Hsplit [Hn [Hv _]]]]].
  exists older, newer. split; [exact Hsplit|]. split.
  - rewrite Hn. subst cs. rewrite repeat_length. reflexivity.
  - rewrite Hv. subst cs. rewrite repeat_length. reflexivity.
Defined.

Lemma visibleCandles_length (cs : list Candle) (visibleCount pan : number)
    (zv zp : Z) :
  integral visibleCount zv -> integral pan zp -> (0 <= zp)%Z ->
  List.length (visibleCandles cs visibleCount pan)
  = Nat.min (Z.to_nat (Z.max 20 (Z.min 120 zv)))
      (List.length cs - Nat.min (Z.to_nat zp) (List.length cs)).
Proof.
  intros Hv Hp Hzp.
  rewrite (visibleCandles_integral cs Hv Hp Hzp).
  rewrite length_firstn, length_skipn. lia.
Qed.

Lemma integral_maxPanOffset (cs : list Candle) :
  integral (maxPanOffset cs) (Z.max 0 (Z.of_nat (List.length cs) - 20)).
Proof.
  unfold maxPanOffset. apply integral_max; [apply (integral_const 0)|].
  apply integral_sub; [apply integral_lengthOf | apply (integral_const 20)].
Qed.

(** X20: dragging the chart keeps the pan offset an integer between 0 and
    [max(0, length - 20)], so that the chart still shows at least
    [min(20, length)] candles; a mouse move without a drag in progress changes
    nothing. *)
Theorem handleChartMouseMove_pan_in_range :
  forall (cs : list Candle) (clientX : number) (v : ChartView) (zs : Z),
    isFinite clientX = true ->
    isFinite (dragStartX v) = true ->
    integral (dragStartPan v) zs ->
    let v' := handleChartMouseMove cs clientX v in
    (dragging v = false -> v' = v) /\
    (dragging v = true ->
     exists zn : Z,
       integral (panOffset v') zn /\
       (0 <= zn <= Z.max 0 (Z.of_nat (List.length cs) - 20))%Z /\
       forall (visibleCount : number) (zv : Z),
         integral visibleCount zv ->
         (Nat.min 20 (List.length cs)
          <= List.length (visibleCandles cs visibleCount (panOffset v')))%nat).
Proof.
  intros cs clientX v zs Hx Hx0 Hpan v'. subst v'. unfold handleChartMouseMove.
  split; intro Hd; rewrite Hd; cbn [negb]; [reflexivity|].
  cbv zeta. cbn [panOffset].
  destruct clientX as [x| | |]; try discriminate Hx.
  destruct (dragStartX v) as [x0| | |]; try discriminate Hx0.
  assert (Hmove : exists zm, integral (mathRound ((Fin x - Fin x0) / Fin 12)%js) zm).
  { apply integral_mathRound. reflexivity. }
  destruct Hmove as [zm Hmove].
  set (zmax := Z.max 0 (Z.of_nat (List.length cs) - 20)).
  exists (Z.max 0 (Z.min zmax (zs - zm))).
  assert (Hnext : integral
                    (clamp (dragStartPan v - mathRound ((Fin x - Fin x0) / Fin 12))%js
                       (Fin 0) (maxPanOffset cs))
                    (Z.max 0 (Z.min zmax (zs - zm)))).
  { apply integral_clamp.
    - apply integral_sub; assumption.
    - apply (integral_const 0).
    - apply integral_maxPanOffset. }
  split; [exact Hnext|]. split; [subst zmax; lia|].
  intros visibleCount zv Hv.
  rewrite (visibleCandles_length cs Hv Hnext) by lia.
  subst zmax. lia.
Qed.

Lemma handleChartMouseMove_pan_in_range_witness :
  let c := mkCandle 1 "10:00:00" (Fin 100) (Fin 101) (Fin 99) (Fin 100) 6 in
  let cs := repeat c 50 in
  let v := handleChartMouseDown (Fin 400) (mkChartView false (Fin 0) (Fin 0) (Fin 0) true) in
  exists zn : Z,
    integral (panOffset (handleChartMouseMove cs (Fin (-2000)) v)) zn /\
    (0 <= zn <= 30)%Z /\
    (20 <= List.length
             (visibleCandles cs (Fin 60)
                (panOffset (handleChartMouseMove cs (Fin (-2000)) v))))%nat.
Proof.
  intros c cs v.
  destruct (@handleChartMouseMove_pan_in_range cs (Fin (-2000)) v 0
              eq_refl eq_refl (integral_const 0)) as [_ H].
  destruct (H eq_refl) as [zn [Hint [Hrange Hvis]]].
  exists zn. split; [exact Hint|]. split.
  - subst cs. rewrite repeat_length in Hrange. exact Hrange.
  - specialize (Hvis (Fin 60) 60%Z (integral_const 60)).
    subst cs. rewrite repeat_length in Hvis at 1. exact Hvis.
Defined.

(** ** Chart scale and crosshair *)

Lemma mathMin_bounds (xs : list number) :
  Forall (fun x => isFinite x = true) xs -> xs <> [] ->
  exists m : Q, mathMin xs = Fin m /\ forall q, In (Fin q) xs -> m <= q.
Proof.
  intros Hall. induction Hall as [|x rest Hx Hrest IH]; intro Hne; [congruence|].
  destruct x as [a| | |]; try discriminate Hx. cbn [mathMin].
  destruct rest as [|y rest'].
  - exists a. split; [reflexivity|].
    intros q [E|[]]. injection E as <-. apply Qle_refl.
  - destruct IH as [r [Hr Hle]]; [discriminate|].
    rewrite Hr, min_Fin.
    destruct (Qle_bool a r) eqn:E; qbool.
    + exists a. split; [reflexivity|]. intros q [Eq|Hin].
      * injection Eq as <-. apply Qle_refl.
      * specialize (Hle q Hin). lra.
    + exists r. split; [reflexivity|]. intros q [Eq|Hin].
      * injection Eq as <-. lra.
      * apply Hle. exact Hin.
Qed.

Lemma mathMax_bounds (xs : list number) :
  Forall (fun x => isFinite x = true) xs -> xs <> [] ->
  exists m : Q, mathMax xs = Fin m /\ forall q, In (Fin q) xs -> q <= m.
Proof.
  intros Hall. induction Hall as [|x rest Hx Hrest IH]; intro Hne; [congruence|].
  destruct x as [a| | |]; try discriminate Hx. cbn [mathMax].
  destruct rest as [|y rest'].
  - exists a. split; [reflexivity|].
    intros q [E|[]]. injection E as <-. apply Qle_refl.
  - destruct IH as [r [Hr Hle]]; [discriminate|].
    rewrite Hr, max_Fin.
    destruct (Qle_bool a r) eqn:E; qbool.
    + exists r. split; [reflexivity|]. intros q [Eq|Hin].
      * injection Eq as <-. exact E.
      * apply Hle. exact Hin.
    + exists a. split; [reflexivity|]. intros q [Eq|Hin].
      * injection Eq as <-. apply Qle_refl.
      * specialize (Hle q Hin). lra.
Qed.

Lemma chartPrices_finite (visible : list Candle) :
  finiteCandles visible ->
  Forall (fun x => isFinite x = true) (chartPrices visible).
Proof.
  intro H. unfold chartPrices. induction H as [|c cs [Hh Hl] Hcs IH]; cbn [flat_map].
  - constructor.
  - cbn [app]. constructor; [exact Hh|]. constructor; [exact Hl | exact IH].
Qed.

Lemma chartPrices_in (visible : list Candle) (c : Candle) :
  In c visible ->
  In (c_high c) (chartPrices visible) /\ In (c_low c) (chartPrices visible).
Proof.
  intro H. unfold chartPrices. split; apply in_flat_map; exists c;
    (split; [exact H|]); cbn; auto.
Qed.

(** The price range of the scale for finite candles. *)
Lemma scale_range (visible : list Candle) :
  finiteCandles visible ->
  exists m M : Q,
    minP visible = Fin m /\ maxP visible = Fin M /\ m <= M /\
    forall c, In c visible ->
              exists h l : Q, c_high c = Fin h /\ c_low c = Fin l
                              /\ m <= h <= M /\ m <= l <= M.
Proof.
  intro Hfin. pose proof (chartPrices_finite Hfin) as Hp.
  assert (Hlow : isFinite (match visible with c :: _ => c_low c | [] => Fin 0 end) = true).
  { destruct Hfin as [|c cs [_ Hl] _]; [reflexivity | exact Hl]. }
  assert (Hhigh : isFinite (match visible with c :: _ => c_high c | [] => Fin 1 end) = true).
  { destruct Hfin as [|c cs [Hh _] _]; [reflexivity | exact Hh]. }
  destruct (@mathMin_bounds
              (chartPrices visible
               ++ [match visible with c :: _ => c_low c | [] => Fin 0 end]))
    as [m [Hm Hmle]].
  { apply Forall_app. split; [exact Hp | constructor; [exact Hlow | constructor]]. }
  { intro E. apply app_eq_nil in E. destruct E as [_ E]. discriminate E. }
  destruct (@mathMax_bounds
              (chartPrices visible
               ++ [match visible with c :: _ => c_high c | [] => Fin 1 end]))
    as [M [HM HMle]].
  { apply Forall_app. split; [exact Hp | constructor; [exact Hhigh | constructor]]. }
  { intro E. apply app_eq_nil in E. destruct E as [_ E]. discriminate E. }
  exists m, M. unfold minP, maxP. split; [exact Hm|]. split; [exact HM|].
  assert (Hin : forall c, In c visible ->
                  exists h l : Q, c_high c = Fin h /\ c_low c = Fin l
                                  /\ m <= h <= M /\ m <= l <= M).
  { intros c Hc. destruct (chartPrices_in _ _ Hc) as [Hinh Hinl].
    unfold finiteCandles in Hfin.
    destruct (proj1 (Forall_forall _ _) Hfin c Hc) as [Hh Hl].
    destruct (c_high c) as [h| | |]; try discriminate Hh.
    destruct (c_low c) as [l| | |]; try discriminate Hl.
    exists h, l. split; [reflexivity|]. split; [reflexivity|].
    split; split.
    - apply Hmle. apply in_or_app. left. exact Hinh.
    - apply HMle. apply in_or_app. left. exact Hinh.
    - apply Hmle. apply in_or_app. left. exact Hinl.
    - apply HMle. apply in_or_app. left. exact Hinl. }
  split; [|exact Hin].
  destruct visible as [|c cs].
  - specialize (Hmle 0). specialize (HMle 1). cbn in Hmle, HMle.
    assert (m <= 0) by (apply Hmle; left; reflexivity).
    assert (1 <= M) by (apply HMle; left; reflexivity). lra.
  - destruct (Hin c (or_introl eq_refl)) as [h [l [_ [_ [[H1 H2] _]]]]]. lra.
Qed.

Lemma plotH_finite (height : number) :
  isFinite height = true -> exists H : Q, plotH height = Fin H /\ 10 <= H.
Proof.
  destruct height as [h| | |]; try discriminate. intros _.
  unfold plotH, padTop, padBottom. cbn [sub neg add]. rewrite max_Fin.
  destruct (Qle_bool 10 (h + - (14) + - (28))) eqn:E; qbool;
    eexists; (split; [reflexivity|]); lra.
Qed.

Lemma scale_fraction (a d : Q) : 0 < d -> 0 <= a <= d -> 0 <= a / d <= 1.
Proof.
  intros Hd [H0 H1]. split.
  - apply Qle_shift_div_l; [exact Hd | lra].
  - apply Qle_shift_div_r; [exact Hd | lra].
Qed.

(** The vertical position of a price within the range of the scale. *)
Lemma yScale_in_plot (height : number) (visible : list Candle) (m M H p : Q) :
  minP visible = Fin m -> maxP visible = Fin M -> m <= M ->
  plotH height = Fin H -> 10 <= H ->
  m <= p <= M ->
  exists y : Q, yScale height visible (Fin p) = Fin y /\ 14 <= y <= 14 + H.
Proof.
  intros Hm HM HmM HH H10 [Hp1 Hp2].
  unfold yScale, yMax, yMin, padTop. rewrite Hm, HM, HH.
  cbn [sub neg add mul strictEq].
  match goal with
  | |- context [Qeq_bool ?u ?v] => destruct (Qeq_bool u v) eqn:E
  end.
  - cbn [div]. replace (Qeq_bool 2 0) with false by reflexivity.
    cbn [add]. eexists. split; [reflexivity|].
    assert (Hhalf : H / 2 == H * (1 # 2)) by field.
    rewrite Hhalf. lra.
  - apply Qeq_bool_neq in E. cbn [div].
    match goal with
    | |- context [Qeq_bool ?d 0] => destruct (Qeq_bool d 0) eqn:Ed
    end.
    + exfalso. apply Qeq_bool_eq in Ed. apply E. lra.
    + cbn [sub neg add mul]. eexists. split; [reflexivity|].
      match goal with
      | |- context [?a / ?d] =>
          assert (Ht : 0 <= a / d <= 1)
            by (apply scale_fraction; [|split]; lra);
          set (t := a / d) in *
      end.
      nra.
Qed.

(** X25: with a finite chart height and candles whose highs and lows are
    finite, the wick of every visible candle is drawn inside the plot area:
    the vertical positions of its high and of its low lie between [pad.top]
    and [pad.top + plotH]. *)
Theorem candles_drawn_inside_plot :
  forall (height : number) (visible : list Candle) (c : Candle),
    isFinite height = true -> finiteCandles visible -> In c visible ->
    (padTop <=? yScale height visible (c_high c))%js = true /\
    (yScale height visible (c_high c) <=? padTop + plotH height)%js = true /\
    (padTop <=? yScale height visible (c_low c))%js = true /\
    (yScale height visible (c_low c) <=? padTop + plotH height)%js = true.
Proof.
  intros height visible c Hh Hfin Hin.
  destruct (scale_range Hfin) as [m [M [Hm [HM [HmM Hall]]]]].
  destruct (plotH_finite height Hh) as [H [HH H10]].
  destruct (Hall c Hin) as [h [l [Ehigh [Elow [Hhr Hlr]]]]].
  destruct (@yScale_in_plot height visible m M H h Hm HM HmM HH H10 Hhr)
    as [yh [Eyh [Hyh1 Hyh2]]].
  destruct (@yScale_in_plot height visible m M H l Hm HM HmM HH H10 Hlr)
    as [yl [Eyl [Hyl1 Hyl2]]].
  rewrite Ehigh, Elow, Eyh, Eyl, HH. unfold padTop. cbn [add].
  repeat split; apply leb_Fin; assumption.
Qed.

Lemma candles_drawn_inside_plot_witness :
  let c1 := mkCandle 1 "10:00:00" (Fin 100) (Fin 101.5) (Fin 99.2) (Fin 100.4) 6 in
  let c2 := mkCandle 2 "10:00:07" (Fin 100.4) (Fin 103) (Fin 100.1) (Fin 102.6) 3 in
  (padTop <=? yScale (Fin 360) [c1; c2] (c_high c2))%js = true /\
  (yScale (Fin 360) [c1; c2] (c_low c1) <=? padTop + plotH (Fin 360))%js = true.
Proof.
  intros c1 c2.
  assert (Hfin : finiteCandles [c1; c2]) by (repeat constructor).
  destruct (@candles_drawn_inside_plot (Fin 360) [c1; c2] c2 eq_refl Hfin
              (or_intror (or_introl eq_refl))) as [H1 _].
  destruct (@candles_drawn_inside_plot (Fin 360) [c1; c2] c1 eq_refl Hfin
              (or_introl eq_refl)) as [_ [_ [_ H4]]].
  split; [exact H1 | exact H4].
Defined.

Lemma clamp_Fin (v a b : Q) : exists x : Q, clamp (Fin v) (Fin a) (Fin b) = Fin x.
Proof.
  unfold clamp. rewrite min_Fin, max_Fin. eexists. reflexivity.
Qed.

(** X27: with finite mouse and chart measures and a rectangle of a width
    other than 0, the crosshair index set on a mouse move is a valid index of
    the visible candles, an integer from 0 to [length - 1]; with no visible
    candle it is [null]. *)
Theorem handleMove_index_in_range :
  forall (width height shiftX : number) (visible : list Candle)
         (clientX clientY : number) (rect : Rect),
    isFinite width = true -> isFinite shiftX = true ->
    isFinite clientX = true -> isFinite (rect_left rect) = true ->
    isFinite (rect_width rect) = true ->
    strictEq (rect_width rect) (Fin 0) = false ->
    let cross := handleMove width height shiftX visible clientX clientY rect in
    (visible = [] -> cross_idx cross = None) /\
    (visible <> [] ->
     exists (i : number) (z : Z),
       cross_idx cross = Some i /\ integral i z /\
       (0 <= z < Z.of_nat (List.length visible))%Z).
Proof.
  intros width height shiftX visible clientX clientY rect
    Hw Hs Hx Hl Hrw Hnz cross. subst cross. unfold handleMove. cbv zeta.
  cbn [cross_idx]. split.
  - intros ->. reflexivity.
  - intro Hne.
    assert (Hlen : (0 < Z.of_nat (List.length visible))%Z).
    { destruct visible; [congruence | cbn [List.length]; lia]. }
    assert (Hpos : (lengthOf visible >? Fin 0)%js = true).
    { unfold gtb, lengthOf. apply ltb_Fin. change 0 with (inject_Z 0).
      rewrite <- Zlt_Qlt. exact Hlen. }
    rewrite Hpos.
    destruct width as [w| | |]; try discriminate Hw.
    destruct shiftX as [s| | |]; try discriminate Hs.
    destruct clientX as [x| | |]; try discriminate Hx.
    destruct (rect_left rect) as [l| | |]; try discriminate Hl.
    destruct (rect_width rect) as [rw| | |]; try discriminate Hrw.
    cbn [strictEq] in Hnz. unfold padLeft, padRight, step.
    cbn [sub neg add mul div]. rewrite Hnz. cbn [mul sub neg add].
    destruct (clamp_Fin ((x + - l) / rw * w) 56 (w + - (18))) as [xc Hxc].
    rewrite Hxc. cbn [sub neg add mul div].
    replace (Qeq_bool (10 + 6) 0) with false by reflexivity.
    cbn [mathFloor].
    eexists. eexists. split; [reflexivity|]. split.
    + apply integral_clamp.
      * apply integral_const.
      * apply (integral_const 0).
      * apply integral_max; [apply (integral_const 0)|].
        apply integral_sub; [apply integral_lengthOf | apply (integral_const 1)].
    + lia.
Qed.

Lemma handleMove_index_in_range_witness :
  let c := mkCandle 1 "10:00:00" (Fin 100) (Fin 101) (Fin 99) (Fin 100) 6 in
  let visible := repeat c 40 in
  let rect := mkRect (Fin 380) (Fin 90) (Fin 1350) (Fin 540) in
  exists (i : number) (z : Z),
    cross_idx (handleMove (Fin 900) (Fin 360) (Fin 0) visible (Fin 1700) (Fin 300) rect)
    = Some i /\ integral i z /\ (0 <= z < 40)%Z.
Proof.
  intros c visible rect.
  destruct (@handleMove_index_in_range (Fin 900) (Fin 360) (Fin 0) visible
              (Fin 1700) (Fin 300) rect eq_refl eq_refl eq_refl eq_refl eq_refl
              eq_refl) as [_ H].
  destruct H as [i [z [Hi [Hint Hz]]]]; [discriminate|].
  exists i, z. split; [exact Hi|]. split; [exact Hint|].
  subst visible. rewrite repeat_length in Hz. exact Hz.
Defined.

(** The two models of [slice] agree: [list.slice(-300)] of the candle effect
    is [jsSlice] with start -300 and the length as end. *)
Lemma jsSlice_last_300 (l : list Candle) :
  jsSlice (Fin (-300)) (lengthOf l) l = sliceLast 300 l.
Proof.
  unfold jsSlice, sliceLast, lengthOf.
  rewrite (@sliceIndex_integral _ _ (Z.of_nat (List.length l))
             (integral_const _)) by lia.
  assert (E : sliceIndex (Z.of_nat (List.length l)) (Fin (-300))
              = Z.max (Z.of_nat (List.length l) + -300) 0) by reflexivity.
  rewrite E.
  replace (Z.to_nat (Z.max (Z.of_nat (List.length l) + -300) 0))
    with (List.length l - 300)%nat by lia.
  apply firstn_all2. rewrite length_skipn. lia.
Qed.

(** ** Exponential moving average *)




(** * Properties of the binary64 code *)

Section Binary64.

Import PrimFloat SpecFloat FloatOps FloatAxioms.
Import F64.

Local Open Scope float_scope.

(** [hundredths] rounds as [toFixed] does: for [|x| = m * 2^e] it is the
    integer [n] nearest to [100 * |x|], the larger one of two that are as
    near: [n - 1/2 <= 100 * m * 2^e < n + 1/2]. *)
Lemma hundredths_nearest (x : number) (s : bool) (m : positive) (e : Z) :
  Prim2SF (abs x) = S754_finite s m e ->
  let n := hundredths x in
  ((e < 0)%Z ->
   ((2 * n - 1) * 2 ^ (- e) <= 200 * Zpos m < (2 * n + 1) * 2 ^ (- e))%Z) /\
  ((0 <= e)%Z -> n = (100 * Zpos m * 2 ^ e)%Z).
Proof.
  intros H n. subst n. unfold hundredths. rewrite H.
  destruct e as [|k|k].
  - split; [lia | reflexivity].
  - split; [lia | reflexivity].
  - split; [intros _ | lia].
    rewrite Pos2Z.inj_pow. change (- Z.neg k)%Z with (Z.pos k).
    change (Z.pos 2) with 2%Z.
    assert (Hd : (0 < 2 ^ Z.pos k)%Z) by (apply Z.pow_pos_nonneg; lia).
    set (d := (2 ^ Z.pos k)%Z) in *.
    set (a := (2 * 100 * Z.pos m + d)%Z).
    assert (Hdiv : (2 * d * (a / (2 * d)) <= a < 2 * d * (a / (2 * d)) + 2 * d)%Z).
    { split.
      - apply Z.mul_div_le. lia.
      - pose proof (Z.mul_succ_div_gt a (2 * d) ltac:(lia)). lia. }
    subst a. split; nia.
Qed.

(** What [Number(x.toFixed(2))] gives on some numbers: a number that lies
    below the decimal it was written as is rounded down (1.005, 2.675), a
    binary tie is rounded away from zero (0.125), a negative number that
    rounds to zero gives [-0], and a large number is left as it is. *)
Example toFixed2_examples :
  toFixed2 1.005 = 1 /\ toFixed2 2.675 = 2.67 /\
  toFixed2 0.125 = 0.13 /\ toFixed2 (-0.125) = -0.13 /\
  toFixed2 94997.87145 = 94997.87 /\
  toFixed2 (-0.001) = -0 /\ toFixed2 (-0) = 0 /\
  toFixed2 1e21 = 1e21 /\ toFixed2 123456789012345678 = 123456789012345678 /\
  toFixed2 infinity = infinity /\ toFixed2 neg_infinity = neg_infinity /\
  is_nan (toFixed2 nan) = true.
Proof.
  repeat split; vm_compute; reflexivity.
Qed.

(** The guard [!Number.isFinite(quantity) || quantity <= 0] is the negation of
    "positive finite". *)
Lemma quantity_guard_binary64 (q : number) :
  negb (isFinite q) || (q <=? 0) = negb (positiveFinite q).
Proof.
  unfold positiveFinite, gtb, isFinite, is_finite, is_nan, is_infinity.
  rewrite leb_spec, ltb_spec, !eqb_spec, abs_spec.
  change (Prim2SF 0) with (S754_zero false).
  change (Prim2SF infinity) with (S754_infinity false).
  destruct (Prim2SF q) as [s|s| |s m e]; try (destruct s; reflexivity);
    try reflexivity.
  unfold SFeqb, SFleb, SFltb, SFabs, SFcompare.
  rewrite Z.compare_refl, Pos.compare_cont_refl.
  destruct s; reflexivity.
Qed.

Lemma find_map_same_key_binary64 (symbol : string) (f : Holding -> Holding)
    (hs : list Holding) :
  (forall h, h_symbol (f h) = h_symbol h) ->
  findHolding (map f hs) symbol = option_map f (findHolding hs symbol).
Proof.
  intro Hf. unfold findHolding.
  induction hs as [|h hs IH]; simpl.
  - reflexivity.
  - rewrite Hf. destruct (String.eqb (h_symbol h) symbol); [reflexivity | exact IH].
Qed.

Lemma findHolding_symbol_binary64 (hs : list Holding) (symbol : string)
    (h : Holding) :
  findHolding hs symbol = Some h -> h_symbol h = symbol.
Proof.
  intro H. apply find_some in H. destruct H as [_ H].
  apply String.eqb_eq. exact H.
Qed.

(** What a buy that passes both guards does to the pending ledger. *)
Lemma buyStock_filled_binary64 (stocks : list Stock) (clk : Clock)
    (snap st st' : Ledger) (symbol : string) (quantity : number)
    (slPrice targetPrice : option number) :
  buyStock stocks clk snap st symbol quantity slPrice targetPrice = (Filled BUY, st') ->
  exists live,
    findStock stocks symbol = Some live /\
    positiveFinite quantity = true /\
    let price := stock_price live in
    let charges := calculateCharges BUY quantity price in
    let totalDebit := quantity * price + total charges in
    (totalDebit >? cash snap) = false /\
    cash st' = toFixed2 (cash st - totalDebit) /\
    holdings st' = buyUpsert symbol quantity price slPrice targetPrice (holdings st) /\
    orders st' =
      firstn 60 (mkOrder (orderId clk) (timeLabel clk) symbol BUY quantity
                   (toFixed2 price) "FILLED" (toFixed2 (total charges)) :: orders st).
Proof.
  unfold buyStock. intro H.
  destruct (findStock stocks symbol) as [live|]; [|discriminate H].
  exists live. split; [reflexivity|].
  rewrite quantity_guard_binary64 in H.
  destruct (positiveFinite quantity); [|discriminate H].
  split; [reflexivity|].
  cbv zeta in *.
  destruct (_ >? cash snap); [discriminate H|].
  injection H as <-. repeat split.
Qed.

(** What a sell that passes every guard does to the pending ledger. *)
Lemma sellStock_filled_binary64 (stocks : list Stock) (clk : Clock)
    (snap st st' : Ledger) (symbol : string) (quantity : number) :
  sellStock stocks clk snap st symbol quantity = (Filled SELL, st') ->
  exists live existing,
    findStock stocks symbol = Some live /\
    positiveFinite quantity = true /\
    findHolding (holdings snap) symbol = Some existing /\
    (quantity >? h_qty existing) = false /\
    let price := stock_price live in
    let charges := calculateCharges SELL quantity price in
    let netCredit := quantity * price - total charges in
    cash st' = toFixed2 (cash st + netCredit) /\
    holdings st' = sellReduce symbol quantity (holdings st) /\
    orders st' =
      firstn 60 (mkOrder (orderId clk) (timeLabel clk) symbol SELL quantity
                   (toFixed2 price) "FILLED" (toFixed2 (total charges)) :: orders st).
Proof.
  unfold sellStock. intro H.
  destruct (findStock stocks symbol) as [live|]; [|discriminate H].
  rewrite quantity_guard_binary64 in H.
  destruct (positiveFinite quantity); [|discriminate H].
  destruct (findHolding (holdings snap) symbol) as [existing|]; [|discriminate H].
  exists live, existing.
  destruct (quantity >? h_qty existing); [discriminate H|].
  cbv zeta in *. injection H as <-. repeat split.
Qed.

(** C2: a buy of a positive finite quantity whose total debit
    [quantity * price + charges.total], computed in binary64 as the handler
    computes it, exceeds the cash is refused with the balance alert and
    leaves the pending ledger (cash, holdings, orders) as it was. *)
Theorem buyStock_refused_above_cash :
  forall (stocks : list Stock) (clk : Clock) (snap st : Ledger) (symbol : string)
         (quantity : number) (slPrice targetPrice : option number) (live : Stock),
    findStock stocks symbol = Some live ->
    positiveFinite quantity = true ->
    let totalDebit :=
      quantity * stock_price live
      + total (calculateCharges BUY quantity (stock_price live)) in
    (totalDebit >? cash snap) = true ->
    buyStock stocks clk snap st symbol quantity slPrice targetPrice
    = (Alerted (BalanceAlert (toFixed2 totalDebit) (toFixed2 (cash snap))), st).
Proof.
  intros stocks clk snap st symbol quantity slPrice targetPrice live
    Hlive Hq totalDebit Hgt.
  unfold buyStock. rewrite Hlive, quantity_guard_binary64, Hq. cbn [negb].
  fold totalDebit. rewrite Hgt. reflexivity.
Qed.

Lemma buyStock_refused_above_cash_witness :
  let stocks := [mkStock "TCS" 500] in
  let clk := mkClock 1700000000000 "10:15:00" in
  let st := mkLedger 1000 [mkHolding "INFY" 3 1500 None None] [] in
  positiveFinite 10 = true /\
  (10 * 500 + total (calculateCharges BUY 10 500) >? 1000) = true /\
  snd (buyStock stocks clk st st "TCS" 10 None (Some 550)) = st.
Proof.
  intros stocks clk st.
  split; [reflexivity|]. split; [reflexivity|].
  rewrite (@buyStock_refused_above_cash stocks clk st st "TCS" 10
             None (Some 550) (mkStock "TCS" 500));
    reflexivity.
Defined.

(** The guard compares the total debit as binary64 computes it.  The balance
    nearest to 3000238.73 lies just below it.  Buying 3000 at 1000 costs
    3000238.73 in exact arithmetic, more than that balance; in binary64 the
    debit is the balance itself, so the guard lets the buy through and the
    cash left is 0. *)
Example buy_with_debit_rounded_to_cash :
  let stocks := [mkStock "TCS" 1000] in
  let clk := mkClock 1700000000000 "10:15:00" in
  let st := mkLedger 3000238.73 [] [] in
  3000 * 1000 + total (calculateCharges BUY 3000 1000) = 3000238.73 /\
  fst (buy stocks clk st "TCS" 3000 None None) = Filled BUY /\
  cash (snd (buy stocks clk st "TCS" 3000 None None)) = 0.
Proof.
  intros stocks clk st.
  split; [vm_compute; reflexivity|].
  split; vm_compute; reflexivity.
Qed.

(** C4 (as amended): a filled buy into an existing holding leaves, for the
    symbol, a holding whose quantity is the old quantity plus the bought one
    and whose average price is [toFixed(2)] of the cost-weighted mean
    [(oldQty * oldAvg + qty * price) / (oldQty + qty)], the mean and the sum
    computed in binary64. *)
Theorem buyStock_average_toFixed2 :
  forall (stocks : list Stock) (clk : Clock) (snap st st' : Ledger)
         (symbol : string) (quantity : number)
         (slPrice targetPrice : option number) (existing : Holding),
    findHolding (holdings st) symbol = Some existing ->
    buyStock stocks clk snap st symbol quantity slPrice targetPrice
    = (Filled BUY, st') ->
    exists (live : Stock) (h' : Holding),
      findStock stocks symbol = Some live /\
      findHolding (holdings st') symbol = Some h' /\
      h_qty h' = h_qty existing + quantity /\
      h_avgBuy h'
      = toFixed2 (weightedMean (h_qty existing) (h_avgBuy existing)
                    quantity (stock_price live)).
Proof.
  intros stocks clk snap st st' symbol quantity slPrice targetPrice existing
    Hex Hbuy.
  apply buyStock_filled_binary64 in Hbuy.
  destruct Hbuy as [live [Hlive [_ [_ [_ [Hhold _]]]]]].
  exists live.
  rewrite Hhold. unfold buyUpsert. rewrite Hex.
  rewrite find_map_same_key_binary64.
  - rewrite Hex. cbn [option_map].
    rewrite (findHolding_symbol_binary64 _ _ Hex), String.eqb_refl.
    eexists. split; [exact Hlive|]. split; [reflexivity|].
    split; reflexivity.
  - intro h. destruct (String.eqb (h_symbol h) symbol); reflexivity.
Qed.

(** The example of the specification: 10 at 100, then 10 at 200, give 20 at
    an average of 150. *)
Lemma buyStock_average_toFixed2_witness :
  let clk := mkClock 1700000000000 "10:15:00" in
  let st0 := mkLedger 100000 [] [] in
  let st1 := snd (buy [mkStock "TCS" 100] clk st0 "TCS" 10 None None) in
  findHolding (holdings st1) "TCS" = Some (mkHolding "TCS" 10 100 None None) /\
  exists (st2 : Ledger) (h' : Holding),
    buy [mkStock "TCS" 200] clk st1 "TCS" 10 None None = (Filled BUY, st2) /\
    findHolding (holdings st2) "TCS" = Some h' /\
    h_qty h' = 20 /\ h_avgBuy h' = 150.
Proof.
  intros clk st0 st1.
  split; [vm_compute; reflexivity|].
  eexists.
  destruct (@buyStock_average_toFixed2 [mkStock "TCS" 200] clk st1 st1
              (snd (buy [mkStock "TCS" 200] clk st1 "TCS" 10 None None))
              "TCS" 10 None None
              (mkHolding "TCS" 10 100 None None)
              ltac:(vm_compute; reflexivity) ltac:(vm_compute; reflexivity))
    as [live [h' [Hlive [Hfind [Hqty Havg]]]]].
  exists h'.
  split; [vm_compute; reflexivity|]. split; [exact Hfind|].
  injection Hlive as <-.
  rewrite Hqty, Havg. split; vm_compute; reflexivity.
Defined.

(** C4 as the specification words it (the average is the mean) fails: with 1
    unit held at 100, buying 1 at 100.01 stores an average of 100, while the
    mean, 100.005 in exact arithmetic, is 100.00499999999999545 in binary64. *)
Lemma buyStock_average_differs_from_mean :
  let clk := mkClock 1700000000000 "10:15:00" in
  let stocks := [mkStock "TCS" 100.01] in
  let st := mkLedger 100000 [mkHolding "TCS" 1 100 None None] [] in
  exists (st' : Ledger) (h' : Holding),
    buy stocks clk st "TCS" 1 None None = (Filled BUY, st') /\
    findHolding (holdings st') "TCS" = Some h' /\
    h_qty h' = 2 /\
    h_avgBuy h' = 100 /\
    weightedMean 1 100 1 100.01 = 100.005 /\
    (h_avgBuy h' =? weightedMean 1 100 1 100.01) = false.
Proof.
  intros clk stocks st.
  eexists. eexists.
  split; [vm_compute; reflexivity|]. split; [vm_compute; reflexivity|].
  repeat split; vm_compute; reflexivity.
Qed.


(** Turnovers further apart keep their order in binary64, also across the
    cap, which the brokerage reaches between the turnovers 66666 and 66667. *)
Example calculateCharges_total_across_cap :
  (brokerage (calculateCharges BUY 1 66666) <? 20) = true /\
  brokerage (calculateCharges BUY 1 66667) = 20 /\
  (total (calculateCharges BUY 1 66666)
     <? total (calculateCharges BUY 1 66667)) = true /\
  (total (calculateCharges SELL 100 500)
     <? total (calculateCharges SELL 200 500)) = true.
Proof.
  repeat split; vm_compute; reflexivity.
Qed.

(** C8: the price generator is a total function of the price, the drift and
    the random draw.  A price that is not finite gives 0.  A finite price [p]
    gives [toFixed(2)] of [p * (1 + (drift + shock))] with the shock
    [(rnd - 0.5) * 0.00015] of the draw [rnd], all computed in binary64.  In
    binary64 the shock is [-0.000075] for the least draw, 0, and stays below
    [0.000075] for the greatest draw below 1; in exact arithmetic it lies in
    [[-0.000075, 0.000075)] for every draw of [[0, 1)]. *)
Theorem simulateNextPrice_binary64 :
  (forall rnd price drift : number,
      isFinite price = false -> simulateNextPrice rnd price drift = 0) /\
  (forall rnd price drift : number,
      isFinite price = true ->
      simulateNextPrice rnd price drift
      = toFixed2 (price * (1 + (drift + (rnd - 0.5) * 0.00015)))) /\
  ((0 - 0.5) * 0.00015 = -0.000075 /\
   ((0.9999999999999999 - 0.5) * 0.00015 <? 0.000075) = true) /\
  (forall u : Q,
      (0 <= u < 1)%Q ->
      exists s : Q,
        ((Fin u - Fin 0.5) * Fin 0.00015)%js = Fin s /\
        (- 0.000075 <= s < 0.000075)%Q).
Proof.
  split; [|split; [|split]].
  - intros rnd price drift H. unfold simulateNextPrice. rewrite H. reflexivity.
  - intros rnd price drift H. unfold simulateNextPrice. rewrite H. reflexivity.
  - split; vm_compute; reflexivity.
  - intros u Hu. eexists. split; [reflexivity|]. lra.
Qed.

Lemma simulateNextPrice_binary64_witness :
  simulateNextPrice 0.25 infinity 0.0001 = 0 /\
  simulateNextPrice 0.25 2500 0.0001 = 2500.16 /\
  simulateNextPrice 0.5 200 0.000025 = 200.
Proof.
  destruct simulateNextPrice_binary64 as [H1 [H2 _]].
  split; [|split].
  - apply (H1 0.25 infinity 0.0001). reflexivity.
  - rewrite (H2 0.25 2500 0.0001); [vm_compute; reflexivity | reflexivity].
  - rewrite (H2 0.5 200 0.000025); [vm_compute; reflexivity | reflexivity].
Defined.

(** C10 (as amended): a filled sell sets the cash to [toFixed(2)] of the cash
    plus [quantity * price - charges.total], whatever the sign of that net
    credit: no floor is applied.  Selling 1 unit at 10, where the flat dp
    charge of 13.5 alone exceeds the gross credit, takes the cash from 100000
    to 99996.49. *)
Theorem sellStock_net_credit_unfloored :
  (forall (stocks : list Stock) (clk : Clock) (snap st st' : Ledger)
          (symbol : string) (quantity : number) (live : Stock),
      findStock stocks symbol = Some live ->
      sellStock stocks clk snap st symbol quantity = (Filled SELL, st') ->
      let grossCredit := quantity * stock_price live in
      let charges := calculateCharges SELL quantity (stock_price live) in
      let netCredit := grossCredit - total charges in
      cash st' = toFixed2 (cash st + netCredit))
  /\
  (forall clk : Clock,
      let stocks := [mkStock "TCS" 10] in
      let st := mkLedger 100000 [mkHolding "TCS" 1 10 None None] [] in
      let charges := calculateCharges SELL 1 10 in
      (1 * 10 <? dp charges) = true /\
      (1 * 10 <? total charges) = true /\
      (1 * 10 - total charges <? 0) = true /\
      exists st' : Ledger,
        sell stocks clk st "TCS" 1 = (Filled SELL, st') /\
        cash st' = 99996.49 /\
        (cash st' <? cash st) = true).
Proof.
  split.
  - intros stocks clk snap st st' symbol quantity live Hlive Hsell
      grossCredit charges netCredit.
    apply sellStock_filled_binary64 in Hsell.
    destruct Hsell as [live' [existing [Hlive' [_ [_ [_ [Hcash _]]]]]]].
    rewrite Hlive in Hlive'. injection Hlive' as <-.
    exact Hcash.
  - intros clk stocks st charges.
    split; [vm_compute; reflexivity|].
    split; [vm_compute; reflexivity|].
    split; [vm_compute; reflexivity|].
    eexists. split; [reflexivity|].
    split; vm_compute; reflexivity.
Qed.

Lemma sellStock_net_credit_unfloored_witness :
  let clk := mkClock 1700000000000 "10:15:00" in
  let stocks := [mkStock "INFY" 2.5] in
  let st := mkLedger 500 [mkHolding "INFY" 4 3 None None] [] in
  let charges := calculateCharges SELL 4 2.5 in
  fst (sell stocks clk st "INFY" 4) = Filled SELL /\
  cash (snd (sell stocks clk st "INFY" 4))
  = toFixed2 (500 + (4 * 2.5 - total charges)) /\
  cash (snd (sell stocks clk st "INFY" 4)) = 496.49.
Proof.
  intros clk stocks st charges.
  split; [vm_compute; reflexivity|].
  assert (H : cash (snd (sell stocks clk st "INFY" 4))
              = toFixed2 (500 + (4 * 2.5 - total charges))).
  { apply (proj1 sellStock_net_credit_unfloored stocks clk st st
             (snd (sell stocks clk st "INFY" 4)) "INFY"%string 4
             (mkStock "INFY" 2.5)).
    - reflexivity.
    - vm_compute. reflexivity. }
  split; [exact H|].
  rewrite H. vm_compute. reflexivity.
Defined.

(** C10 as the specification words it (any sell whose gross credit is less
    than the charges lowers the cash) fails: selling 1.0005 units at 13.50
    brings 13.50675 against charges of 13.5087, and the cash stays at 100000,
    the deficit being lost in the rounding to two decimals. *)
Lemma sellStock_deficit_absorbed :
  let clk := mkClock 1700000000000 "10:15:00" in
  let stocks := [mkStock "TCS" 13.5] in
  let st := mkLedger 100000 [mkHolding "TCS" 2 13 None None] [] in
  let charges := calculateCharges SELL 1.0005 13.5 in
  (1.0005 * 13.5 <? total charges) = true /\
  (1.0005 * 13.5 - total charges <? 0) = true /\
  exists st' : Ledger,
    sell stocks clk st "TCS" 1.0005 = (Filled SELL, st') /\
    cash st' = 100000 /\
    (cash st' <? cash st) = false.
Proof.
  intros clk stocks st charges.
  split; [vm_compute; reflexivity|].
  split; [vm_compute; reflexivity|].
  eexists. split; [vm_compute; reflexivity|].
  split; vm_compute; reflexivity.
Qed.

End Binary64.
